(** * Feed exports and item sampling: a shallow embedding

    The two source modules are [scrapy/contrib/feedexport.py] (the feed
    exporter and its storage registry) and
    [scrapy/trunk/scrapy/contrib/itemsampler.py] (the sampling pipeline stage
    and its middleware).  Both are Python 2 code running on Twisted's reactor
    thread.  The development has three layers:

    - [Py]: the pieces of the Python runtime both modules lean on: exceptions
      as values, the [%] string formatting operator, [urlparse(..).scheme];
    - [FeedExport] and [ItemSampler]: the classes of the two modules, method by
      method, over an explicit state;
    - [FeedExportFacts] and [ItemSamplerFacts]: what is proved about them. *)

From Stdlib Require Import ZArith Ascii DecimalString.
From stdpp Require Import gmap strings list fin_maps.

(* ===================================================================== *)
(** ** The Python fragment                                                *)
(* ===================================================================== *)

Module Py.

(** Exceptions that can travel through the modelled code. *)
Inductive Exn :=
  | NotConfigured
  | KeyError (key : string)
  | TypeError (msg : string)
  | ValueError (msg : string)
  | AlreadyCalledError
  | OtherError (name : string).

#[global] Instance Exn_eq_dec : EqDecision Exn.
Proof. solve_decision. Defined.

(** The outcome of an expression that may raise. *)
Inductive Result (A : Type) :=
  | Ret (a : A)
  | Raise (e : Exn).
Arguments Ret {A} a.
Arguments Raise {A} e.

Definition rmap {A B} (f : A → B) (r : Result A) : Result B :=
  match r with
  | Ret a => Ret (f a)
  | Raise e => Raise e
  end.

(** The values that reach a format string or the stats store. *)
Inductive PyVal :=
  | PNone
  | PInt (z : Z)
  | PStr (s : string).

(** [str(int)]: decimal digits with a leading minus sign. *)
Definition int_str (z : Z) : string := NilZero.string_of_int (Z.to_int z).

(** [str(v)]. *)
Definition str (v : PyVal) : string :=
  match v with
  | PNone => "None"
  | PInt z => int_str z
  | PStr s => s
  end.

(** *** [format % args]

    The right operand is a tuple (or one value that is not a tuple, which
    behaves like a one-element tuple) or a dict. *)
Inductive FmtArgs :=
  | Positional (l : list PyVal)
  | Mapping (m : gmap string PyVal).

(** Where the scanner is: in literal text, just behind a [%] (with the
    mapping key already read, if any), or inside [%(key]. *)
Inductive FmtMode :=
  | Text
  | Spec (key : option string)
  | Key (acc : string).

(** The argument of one conversion.  CPython fetches it before it looks at
    the conversion character, so a missing argument is reported even when the
    character is not a conversion at all. *)
Definition next_arg (key : option string) (args : FmtArgs) : Result (PyVal * FmtArgs) :=
  match key, args with
  | Some k, Mapping m =>
      match m !! k with
      | Some v => Ret (v, args)
      | None => Raise (KeyError k)
      end
  | Some _, Positional _ => Raise (TypeError "format requires a mapping")
  | None, Positional (v :: l) => Ret (v, Positional l)
  | None, Positional [] => Raise (TypeError "not enough arguments for format string")
  | None, Mapping _ => Raise (ValueError "a dict rendered by a keyless conversion is not modelled")
  end.

(** One conversion rendered.  The fragment is [%s] and [%d], which is all the
    templates of the two modules use; flags, widths, precisions and the other
    conversion characters are not rendered: where CPython would go on the
    model stops with [ValueError]. *)
Definition convert (c : ascii) (v : PyVal) : Result string :=
  if decide (c = "s"%char) then Ret (str v)
  else if decide (c = "d"%char) then
    match v with
    | PInt z => Ret (int_str z)
    | _ => Raise (TypeError "%d format: a number is required")
    end
  else Raise (ValueError "unsupported format character").

Fixpoint fmt_go (s : string) (m : FmtMode) (args : FmtArgs) : Result string :=
  match s with
  | EmptyString =>
      match m with
      | Text =>
          match args with
          | Positional (_ :: _) =>
              Raise (TypeError "not all arguments converted during string formatting")
          | _ => Ret EmptyString
          end
      | Spec _ => Raise (ValueError "incomplete format")
      | Key _ => Raise (ValueError "incomplete format key")
      end
  | String c s' =>
      match m with
      | Text =>
          if decide (c = "%"%char) then fmt_go s' (Spec None) args
          else rmap (String c) (fmt_go s' Text args)
      | Spec key =>
          if decide (c = "%"%char) then rmap (String c) (fmt_go s' Text args)
          else if decide (c = "("%char ∧ key = None) then
            match args with
            | Mapping _ => fmt_go s' (Key EmptyString) args
            | Positional _ => Raise (TypeError "format requires a mapping")
            end
          else
            match next_arg key args with
            | Raise e => Raise e
            | Ret (v, args') =>
                match convert c v with
                | Raise e => Raise e
                | Ret out => rmap (String.append out) (fmt_go s' Text args')
                end
            end
      | Key acc =>
          if decide (c = ")"%char) then fmt_go s' (Spec (Some acc)) args
          else fmt_go s' (Key (acc +:+ String c EmptyString)) args
      end
  end.

(** [fmt % args]. *)
Definition pyformat (fmt : string) (args : FmtArgs) : Result string :=
  fmt_go fmt Text args.

(** *** Small string helpers *)

Fixpoint string_forallb (p : ascii → bool) (s : string) : bool :=
  match s with
  | EmptyString => true
  | String c s' => p c && string_forallb p s'
  end.

Fixpoint string_map (f : ascii → ascii) (s : string) : string :=
  match s with
  | EmptyString => EmptyString
  | String c s' => String (f c) (string_map f s')
  end.

Definition is_upper (c : ascii) : bool :=
  let n := nat_of_ascii c in (65 <=? n)%nat && (n <=? 90)%nat.
Definition is_lower (c : ascii) : bool :=
  let n := nat_of_ascii c in (97 <=? n)%nat && (n <=? 122)%nat.
Definition is_digit (c : ascii) : bool :=
  let n := nat_of_ascii c in (48 <=? n)%nat && (n <=? 57)%nat.

Definition lower_char (c : ascii) : ascii :=
  if is_upper c then ascii_of_nat (nat_of_ascii c + 32) else c.

(** [s.lower()]. *)
Definition lower (s : string) : string := string_map lower_char s.

(** [s.replace(a, b)] for single characters. *)
Definition replace_char (a b : ascii) (s : string) : string :=
  string_map (λ c, if decide (c = a) then b else c) s.

(** No [%] anywhere in the string. *)
Definition percent_free (s : string) : bool :=
  string_forallb (λ c, bool_decide (c ≠ "%"%char)) s.

(** *** [urlparse(uri).scheme]

    The scheme as [urlsplit] finds it: the text before the first colon, in
    lower case, when that text is not empty and is made of letters, digits,
    [+], [-] and [.] only; the empty string otherwise. *)
Definition is_scheme_char (c : ascii) : bool :=
  is_lower c || is_upper c || is_digit c
  || bool_decide (c = "+"%char) || bool_decide (c = "-"%char) || bool_decide (c = "."%char).

(** [url[:url.find(':')]], or [None] when there is no colon. *)
Fixpoint before_colon (url : string) : option string :=
  match url with
  | EmptyString => None
  | String c rest =>
      if decide (c = ":"%char) then Some EmptyString
      else String c <$> before_colon rest
  end.

Definition urlparse_scheme (url : string) : string :=
  match before_colon url with
  | Some (String c pre) =>
      if string_forallb is_scheme_char (String c pre) then lower (String c pre)
      else EmptyString
  | _ => EmptyString
  end.

End Py.

(* ===================================================================== *)
(** ** scrapy/contrib/feedexport.py                                       *)
(* ===================================================================== *)

Module FeedExport.
Import Py.

(** A scraped item, as far as an exporter can look at it. *)
Definition Item : Type := list (string * PyVal).

(** A spider: its identity (the key of [self.slots]) and what
    [dir(spider)] / [getattr] show of it. *)
Record Spider := {
  spider_id : nat;
  attrs : gmap string PyVal
}.

(** *** Temporary files

    [TemporaryFile(prefix='feed-')]: a byte buffer with a position.  A file
    object is shared by the slot, the exporter bound to it, the storage that
    reads it and the callback that closes it, so files live in a heap and are
    passed around by address. *)
Record TempFile := {
  f_data : list Byte.byte;
  f_pos : nat;
  f_closed : bool
}.

Definition new_file : TempFile :=
  {| f_data := []; f_pos := 0; f_closed := false |}.

Definition file_write (bs : list Byte.byte) (f : TempFile) : TempFile :=
  {| f_data := take (f_pos f) (f_data f) ++ bs ++ drop (f_pos f + length bs) (f_data f);
     f_pos := f_pos f + length bs;
     f_closed := f_closed f |}.

Definition file_seek (p : nat) (f : TempFile) : TempFile :=
  {| f_data := f_data f; f_pos := p; f_closed := f_closed f |}.

Definition file_close (f : TempFile) : TempFile :=
  {| f_data := f_data f; f_pos := f_pos f; f_closed := true |}.

(** *** Exporters

    An item exporter class (the values of [self.exporters]).  What a call
    writes may depend on the items exported before it (a JSON array writes a
    comma before every item but the first). *)
Record ExporterClass := {
  start_bytes : list Byte.byte;
  item_bytes : list Item → Item → list Byte.byte;
  finish_bytes : list Item → list Byte.byte
}.

(** An exporter instance: bound to the file it was constructed on. *)
Record Exporter := {
  exp_class : ExporterClass;
  exp_file : nat;
  exp_seen : list Item
}.

(** *** Storages *)

(** What [storage.store(file, spider)] does as seen by its caller: return,
    raise, or hand back a Deferred that fires later
    ([BlockingFeedStorage.store] is [threads.deferToThread(..)]). *)
Inductive StoreMode :=
  | StoreReturns
  | StoreRaises (e : Exn)
  | StoreDefers.

Record Storage := {
  target : string;
  store_mode : StoreMode
}.

(** A value of [self.storages]: called with the URI; it may raise, and what
    it returns may be falsy ([None] below). *)
Definition StorageCtor : Type := string → Result (option Storage).

(** [StdoutFeedStorage(uri)]: [store] copies the file inline. *)
Definition StdoutFeedStorage : StorageCtor :=
  λ uri, Ret (Some {| target := uri; store_mode := StoreReturns |}).

(** [FileFeedStorage(uri)] and [FTPFeedStorage(uri)]: [store] is inherited
    from [BlockingFeedStorage]. *)
Definition FileFeedStorage : StorageCtor :=
  λ uri, Ret (Some {| target := uri; store_mode := StoreDefers |}).
Definition FTPFeedStorage : StorageCtor :=
  λ uri, Ret (Some {| target := uri; store_mode := StoreDefers |}).

(** [S3FeedStorage(uri)]: raises [NotConfigured] when [boto] cannot be
    imported. *)
Definition S3FeedStorage (boto_available : bool) : StorageCtor :=
  λ uri, if boto_available
         then Ret (Some {| target := uri; store_mode := StoreDefers |})
         else Raise NotConfigured.

(** *** Twisted's Deferred, as far as [close_spider] uses it *)

Inductive DResult :=
  | DSuccess
  | DFailure (cause : Exn).

(** The three callables [close_spider] attaches, with what they close over. *)
Inductive Thunk :=
  | LogStored (logfmt : string) (spider : nat)
      (** [lambda _: log.msg(logfmt % "Stored", spider=spider)] *)
  | LogErr (msg : string) (spider : nat)
      (** [log.err] with the extra arguments [msg, spider=spider] *)
  | CloseFile (file : nat).
      (** [lambda _: slot.file.close()] *)

(** A Deferred: its current result once it has fired, and the
    (callback, errback) pairs not run yet; [None] is the pass-through. *)
Record Deferred := {
  d_result : option DResult;
  d_callbacks : list (option Thunk * option Thunk)
}.

(** *** What the outside world sees *)

Inductive LogLevel := INFO | ERROR.

Inductive Event :=
  | EvLogMsg (msg : string) (level : LogLevel) (spider : option nat)
  | EvLogErr (failure : DResult) (msg : string) (spider : option nat)
  | EvStore (storage : Storage) (file : nat) (stream : option TempFile) (spider : nat)
  | EvClose (file : nat)
  | EvConnect (handler signal : string).

(** *** The extension object and the mutable state *)

(** The customizer of [FEED_URI_PARAMS]: it mutates the parameter dict. *)
Definition UriPar : Type := gmap string PyVal → Spider → gmap string PyVal.

Record SpiderSlot := {
  file : nat;
  exporter : Exporter;
  itemcount : Z
}.

(** The attributes [__init__] sets and nothing changes afterwards. *)
Record FeedExporter := {
  urifmt : string;
  format : string;
  storages : gmap string StorageCtor;
  exporters : gmap string ExporterClass;
  store_empty : bool;
  _uripar : UriPar
}.

(** Everything that changes: [self.slots], the file and Deferred heaps, and
    the events emitted so far (oldest first). *)
Record State := {
  slots : gmap nat SpiderSlot;
  files : list TempFile;
  deferreds : list Deferred;
  trace : list Event
}.

Definition init_state : State :=
  {| slots := ∅; files := []; deferreds := []; trace := [] |}.

Definition set_slots (f : gmap nat SpiderSlot → gmap nat SpiderSlot) (st : State) : State :=
  {| slots := f (slots st); files := files st; deferreds := deferreds st; trace := trace st |}.
Definition set_files (f : list TempFile → list TempFile) (st : State) : State :=
  {| slots := slots st; files := f (files st); deferreds := deferreds st; trace := trace st |}.
Definition set_deferreds (f : list Deferred → list Deferred) (st : State) : State :=
  {| slots := slots st; files := files st; deferreds := f (deferreds st); trace := trace st |}.
Definition emit (e : Event) (st : State) : State :=
  {| slots := slots st; files := files st; deferreds := deferreds st; trace := trace st ++ [e] |}.

(** *** State and exceptions *)

Definition M (A : Type) : Type := State → Result A * State.

Definition ret {A} (a : A) : M A := λ st, (Ret a, st).
Definition raise {A} (e : Exn) : M A := λ st, (Raise e, st).
Definition lift {A} (r : Result A) : M A := λ st, (r, st).
Definition bind {A B} (m : M A) (k : A → M B) : M B :=
  λ st, match m st with
        | (Ret a, st') => k a st'
        | (Raise e, st') => (Raise e, st')
        end.
Definition gets {A} (f : State → A) : M A := λ st, (Ret (f st), st).
Definition modify (f : State → State) : M unit := λ st, (Ret tt, f st).

Notation "'do' x <- m ; k" := (bind m (λ x, k))
  (at level 10, x name, m at level 100, k at level 200).
Notation "'run' m ; k" := (bind m (λ _, k))
  (at level 10, m at level 100, k at level 200).

(** [try: body except NotConfigured: handler]. *)
Definition try_NotConfigured {A} (body handler : M A) : M A :=
  λ st, match body st with
        | (Raise NotConfigured, st') => handler st'
        | r => r
        end.

(** *** [log] *)

Definition log_msg (msg : string) (level : LogLevel) (spider : option nat) : M unit :=
  modify (emit (EvLogMsg msg level spider)).

(** *** Deferreds *)

Definition run_thunk (t : Thunk) (r : DResult) (st : State) : DResult * State :=
  match t with
  | LogStored logfmt spider =>
      match pyformat logfmt (Positional [PStr "Stored"]) with
      | Ret msg => (DSuccess, emit (EvLogMsg msg INFO (Some spider)) st)
      | Raise e => (DFailure e, st)
      end
  | LogErr msg spider => (DSuccess, emit (EvLogErr r msg (Some spider)) st)
  | CloseFile f => (DSuccess, emit (EvClose f) (set_files (alter file_close f) st))
  end.

(** [Deferred._runCallbacks]: each pair in turn, the callback on a success
    and the errback on a failure; what the callable returns (here always
    [None]) or raises is the result handed to the next pair. *)
Fixpoint run_chain (cbs : list (option Thunk * option Thunk)) (r : DResult) (st : State)
  : DResult * State :=
  match cbs with
  | [] => (r, st)
  | (cb, eb) :: rest =>
      match (match r with DSuccess => cb | DFailure _ => eb end) with
      | None => run_chain rest r st
      | Some t => let '(r', st') := run_thunk t r st in run_chain rest r' st'
      end
  end.

Definition runCallbacks (d : nat) : M unit :=
  λ st, match deferreds st !! d with
        | Some {| d_result := Some r; d_callbacks := cbs |} =>
            let '(r', st') := run_chain cbs r st in
            (Ret tt, set_deferreds <[d := {| d_result := Some r'; d_callbacks := [] |}]> st')
        | _ => (Ret tt, st)
        end.

Definition addCallbacks (d : nat) (cb eb : option Thunk) : M unit :=
  run modify (set_deferreds (alter (λ dd,
        {| d_result := d_result dd; d_callbacks := d_callbacks dd ++ [(cb, eb)] |}) d));
  runCallbacks d.

Definition addCallback (d : nat) (t : Thunk) : M unit := addCallbacks d (Some t) None.
Definition addErrback (d : nat) (t : Thunk) : M unit := addCallbacks d None (Some t).
Definition addBoth (d : nat) (t : Thunk) : M unit := addCallbacks d (Some t) (Some t).

(** [defer.maybeDeferred(storage.store, slot.file, spider)]: the call is
    made; a return value becomes a fired Deferred, an exception a failed one,
    and a Deferred is handed on as it is.  The address of the Deferred is
    returned. *)
Definition maybeDeferred (storage : Storage) (file : nat) (spider : Spider) : M nat :=
  do stream <- gets (λ st, files st !! file);
  run modify (emit (EvStore storage file stream (spider_id spider)));
  do d <- gets (λ st, length (deferreds st));
  run modify (set_deferreds (λ ds, ds ++ [
        {| d_result := match store_mode storage with
                       | StoreReturns => Some DSuccess
                       | StoreRaises e => Some (DFailure e)
                       | StoreDefers => None
                       end;
           d_callbacks := [] |}]));
  ret d.

(** The reactor firing a pending Deferred: [d.callback(..)] or
    [d.errback(..)]. *)
Definition fire (d : nat) (r : DResult) : M unit :=
  do dd <- gets (λ st, deferreds st !! d);
  match dd with
  | Some {| d_result := None; d_callbacks := cbs |} =>
      run modify (set_deferreds <[d := {| d_result := Some r; d_callbacks := cbs |}]>);
      runCallbacks d
  | Some _ => raise AlreadyCalledError
  | None => raise (KeyError "deferred")
  end.

(** *** Files and exporters in the heap *)

Definition TemporaryFile : M nat :=
  do f <- gets (λ st, length (files st));
  run modify (set_files (λ fs, fs ++ [new_file]));
  ret f.

Definition write (f : nat) (bs : list Byte.byte) : M unit :=
  modify (set_files (alter (file_write bs) f)).

(** [file.tell()]. *)
Definition tell (f : nat) : M nat :=
  gets (λ st, from_option f_pos 0 (files st !! f)).

(** [file.seek(p)]. *)
Definition seek (f : nat) (p : nat) : M unit :=
  modify (set_files (alter (file_seek p) f)).

Definition start_exporting (e : Exporter) : M unit :=
  write (exp_file e) (start_bytes (exp_class e)).

Definition export_item (e : Exporter) (item : Item) : M Exporter :=
  run write (exp_file e) (item_bytes (exp_class e) (exp_seen e) item);
  ret {| exp_class := exp_class e; exp_file := exp_file e; exp_seen := exp_seen e ++ [item] |}.

Definition finish_exporting (e : Exporter) : M unit :=
  write (exp_file e) (finish_bytes (exp_class e) (exp_seen e)).

(** *** [FeedExporter] *)

Section Methods.
Variable self : FeedExporter.

(** [self.exporters[self.format](file)]. *)
Definition _get_exporter (f : nat) : M Exporter :=
  match exporters self !! format self with
  | Some cls => ret {| exp_class := cls; exp_file := f; exp_seen := [] |}
  | None => raise (KeyError (format self))
  end.

(** [self.storages[urlparse(uri).scheme](uri)]. *)
Definition _get_storage (uri : string) : M (option Storage) :=
  match storages self !! urlparse_scheme uri with
  | Some ctor => lift (ctor uri)
  | None => raise (KeyError (urlparse_scheme uri))
  end.

(** [now] is [datetime.utcnow().replace(microsecond=0).isoformat()]. *)
Definition _get_uri_params (spider : Spider) (now : string) : gmap string PyVal :=
  let params := attrs spider in
  let ts := replace_char ":" "-" now in
  let params := <["time" := PStr ts]> params in
  _uripar self params spider.

Definition open_spider (spider : Spider) : M unit :=
  do f <- TemporaryFile;
  do exp <- _get_exporter f;
  run start_exporting exp;
  modify (set_slots <[spider_id spider := {| file := f; exporter := exp; itemcount := 0 |}]>).

(** The result is the Deferred returned to the dispatcher, [None] when the
    method returns nothing. *)
Definition close_spider (spider : Spider) (now : string) : M (option nat) :=
  do popped <- gets (λ st, slots st !! spider_id spider);
  match popped with
  | None => raise (KeyError "spider")
  | Some slot =>
      run modify (set_slots (delete (spider_id spider)));
      if bool_decide (itemcount slot = 0%Z) && negb (store_empty self) then ret None
      else
        run finish_exporting (exporter slot);
        do nbytes <- tell (file slot);
        run seek (file slot) 0;
        do uri <- lift (pyformat (urifmt self) (Mapping (_get_uri_params spider now)));
        do storage <- _get_storage uri;
        match storage with
        | None => ret None
        | Some storage =>
            do logfmt <- lift (pyformat "%%s %s feed (%d items, %d bytes) in: %s"
                                 (Positional [PStr (format self); PInt (itemcount slot);
                                              PInt (Z.of_nat nbytes); PStr uri]));
            do d <- maybeDeferred storage (file slot) spider;
            run addCallback d (LogStored logfmt (spider_id spider));
            do msg <- lift (pyformat logfmt (Positional [PStr "Error storing"]));
            run addErrback d (LogErr msg (spider_id spider));
            run addBoth d (CloseFile (file slot));
            ret (Some d)
        end
  end.

Definition item_passed (item : Item) (spider : Spider) : M Item :=
  do found <- gets (λ st, slots st !! spider_id spider);
  match found with
  | None => raise (KeyError "spider")
  | Some slot =>
      do exp <- export_item (exporter slot) item;
      run modify (set_slots <[spider_id spider :=
            {| file := file slot; exporter := exp; itemcount := itemcount slot + 1 |}]>);
      ret item
  end.

End Methods.

(** *** Construction *)

(** [for k, v in conf.items(): try: d[k] = load_object(v) except
    NotConfigured: pass]. *)
Fixpoint load_each {A} (load_object : string → Result A) (conf : list (string * string))
    (d : gmap string A) : Result (gmap string A) :=
  match conf with
  | [] => Ret d
  | (k, v) :: rest =>
      match load_object v with
      | Ret obj => load_each load_object rest (<[k := obj]> d)
      | Raise NotConfigured => load_each load_object rest d
      | Raise e => Raise e
      end
  end.

(** [conf = dict(base); conf.update(override)]. *)
Definition updated (base override : gmap string string) : gmap string string :=
  override ∪ base.

(** [self._load_components(setting_prefix)], given the two settings
    [<prefix>_BASE] and [<prefix>]: the merged dict is built, then every
    value is loaded, in the order [conf.items()] gives them. *)
Definition _load_components {A} (load_object : string → Result A)
    (base override : gmap string string) : Result (gmap string A) :=
  let conf := updated base override in
  load_each load_object (map_to_list conf) ∅.

(** The settings [__init__] reads. *)
Record Settings := {
  FEED_URI : string;
  FEED_FORMAT : string;
  FEED_STORAGES_BASE : gmap string string;
  FEED_STORAGES : gmap string string;
  FEED_EXPORTERS_BASE : gmap string string;
  FEED_EXPORTERS : gmap string string;
  FEED_STORE_EMPTY : bool;
  FEED_URI_PARAMS : string
}.

(** [load_object], at the three types it is used at. *)
Record Loader := {
  load_storage : string → Result StorageCtor;
  load_exporter : string → Result ExporterClass;
  load_uripar : string → Result UriPar
}.

(** [self._exporter_supported(format)]; [false] is the [None] the method
    falls off with. *)
Definition _exporter_supported (exps : gmap string ExporterClass) (fmt : string) : M bool :=
  match exps !! fmt with
  | Some _ => ret true
  | None =>
      run log_msg ("Unknown feed format: " +:+ fmt) ERROR None;
      ret false
  end.

(** [self._storage_supported(uri)]. *)
Definition _storage_supported (stos : gmap string StorageCtor) (uri : string) : M bool :=
  let scheme := urlparse_scheme uri in
  match stos !! scheme with
  | Some ctor =>
      try_NotConfigured
        (do _ <- lift (ctor uri); ret true)
        (run log_msg ("Disabled feed storage scheme: " +:+ scheme) ERROR None;
         ret false)
  | None =>
      run log_msg ("Unknown feed storage scheme: " +:+ scheme) ERROR None;
      ret false
  end.

Definition connect (handler signal : string) : M unit :=
  modify (emit (EvConnect handler signal)).

(** [FeedExporter.__init__]. *)
Definition FeedExporter_init (settings : Settings) (ld : Loader) : M FeedExporter :=
  if bool_decide (FEED_URI settings = EmptyString) then raise NotConfigured
  else
    let fmt := lower (FEED_FORMAT settings) in
    do stos <- lift (_load_components (load_storage ld)
                       (FEED_STORAGES_BASE settings) (FEED_STORAGES settings));
    do exps <- lift (_load_components (load_exporter ld)
                       (FEED_EXPORTERS_BASE settings) (FEED_EXPORTERS settings));
    do ok <- _storage_supported stos (FEED_URI settings);
    if negb ok then raise NotConfigured
    else
      do ok <- _exporter_supported exps fmt;
      if negb ok then raise NotConfigured
      else
        do uripar <- (if bool_decide (FEED_URI_PARAMS settings = EmptyString)
                      then ret (λ params _, params)
                      else lift (load_uripar ld (FEED_URI_PARAMS settings)));
        run connect "open_spider" "spider_opened";
        run connect "close_spider" "spider_closed";
        run connect "item_passed" "item_passed";
        ret {| urifmt := FEED_URI settings; format := fmt; storages := stos;
               exporters := exps; store_empty := FEED_STORE_EMPTY settings;
               _uripar := uripar |}.

(** *** The signals the engine delivers, and the reactor's completions *)

Inductive Signal :=
  | spider_opened (spider : Spider)
  | spider_closed (spider : Spider) (now : string)
  | item_passed_signal (item : Item) (spider : Spider)
  | store_completed (d : nat) (r : DResult).

(** One delivery: the handler runs; what it returns or raises goes back to
    the engine, the state stays as the handler left it. *)
Definition deliver (self : FeedExporter) (sig : Signal) (st : State) : State :=
  match sig with
  | spider_opened s => (open_spider self s st).2
  | spider_closed s now => (close_spider self s now st).2
  | item_passed_signal i s => (item_passed i s st).2
  | store_completed d r => (fire d r st).2
  end.

Definition deliver_all (self : FeedExporter) (sigs : list Signal) (st : State) : State :=
  foldl (λ st sig, deliver self sig st) st sigs.

(** The state once the store behind Deferred [d] has completed with [r]: a
    pending Deferred is fired by the reactor, one that fired inside
    [maybeDeferred] has run its callbacks as they were added. *)
Definition settle (d : nat) (r : DResult) (st : State) : State :=
  match deferreds st !! d with
  | Some {| d_result := None; d_callbacks := _ |} => (fire d r st).2
  | _ => st
  end.

(** How a store ends: by itself when it ran inline, as the reactor reports
    when it was deferred. *)
Definition store_outcome (storage : Storage) (r : DResult) : DResult :=
  match store_mode storage with
  | StoreReturns => DSuccess
  | StoreRaises e => DFailure e
  | StoreDefers => r
  end.

(** A signal that neither opens nor closes the given spider. *)
Definition inside (sid : nat) (sig : Signal) : Prop :=
  match sig with
  | spider_opened s => spider_id s ≠ sid
  | spider_closed s _ => spider_id s ≠ sid
  | _ => True
  end.

(** The feed of a list of items as an exporter class writes it. *)
Fixpoint items_bytes (cls : ExporterClass) (seen items : list Item) : list Byte.byte :=
  match items with
  | [] => []
  | i :: rest => item_bytes cls seen i ++ items_bytes cls (seen ++ [i]) rest
  end.

Definition feed_bytes (cls : ExporterClass) (items : list Item) : list Byte.byte :=
  start_bytes cls ++ items_bytes cls [] items ++ finish_bytes cls items.

(** The items a signal sequence passes for one spider, in order. *)
Definition items_of (sid : nat) (sigs : list Signal) : list Item :=
  omap (λ sig, match sig with
               | item_passed_signal i s => if decide (spider_id s = sid) then Some i else None
               | _ => None
               end) sigs.

(** The [store] calls among a list of events. *)
Definition is_store (e : Event) : bool :=
  match e with
  | EvStore _ _ _ _ => true
  | _ => false
  end.

Definition store_calls (evs : list Event) : list Event := List.filter is_store evs.

(** *** The vocabulary of the statements below *)

(** What the loop leaves under a key: the loaded object when the key is in
    the configuration and its value loads, what was there before otherwise. *)
Definition loaded {A} (load_object : string → Result A) (conf : gmap string string)
    (d : gmap string A) (k : string) : option A :=
  match conf !! k with
  | Some v => match load_object v with Ret obj => Some obj | Raise _ => d !! k end
  | None => d !! k
  end.

(** From a state in [P] the computation ends in [Q] when it returns and in
    [E] when it raises. *)
Definition hoare {A} (P : State → Prop) (m : M A) (Q : A → State → Prop)
    (E : State → Prop) : Prop :=
  ∀ st, P st → match m st with
               | (Ret a, st') => Q a st'
               | (Raise _, st') => E st'
               end.

(** What an exporter has written: the header and the items it has seen. *)
Definition feed_so_far (e : Exporter) : list Byte.byte :=
  start_bytes (exp_class e) ++ items_bytes (exp_class e) [] (exp_seen e).

(** The stream of a live slot: the feed so far, positioned at its end, open. *)
Definition stream_of (e : Exporter) : TempFile :=
  {| f_data := feed_so_far e; f_pos := length (feed_so_far e); f_closed := false |}.

(** The pair of callables has [file.close()] of the given file in it. *)
Definition closes (f : nat) (p : option Thunk * option Thunk) : Prop :=
  p.1 = Some (CloseFile f) ∨ p.2 = Some (CloseFile f).

(** A file that exists and belongs to no live slot. *)
Definition dead (f : nat) (st : State) : Prop :=
  f < length (files st) ∧ ∀ sid slot, slots st !! sid = Some slot → file slot ≠ f.

(** Every live slot counts the items its exporter has seen and owns an open
    stream holding the feed so far; no stream is shared by two slots; the
    callbacks waiting in Deferreds close streams of slots that are gone. *)
Record feed_inv (st : State) : Prop := {
  inv_slot : ∀ sid slot, slots st !! sid = Some slot →
    exp_file (exporter slot) = file slot
    ∧ itemcount slot = Z.of_nat (length (exp_seen (exporter slot)))
    ∧ files st !! file slot = Some (stream_of (exporter slot));
  inv_distinct : ∀ s1 s2 slot1 slot2,
    slots st !! s1 = Some slot1 → slots st !! s2 = Some slot2 →
    file slot1 = file slot2 → s1 = s2;
  inv_deferred : ∀ d dd p f,
    deferreds st !! d = Some dd → p ∈ d_callbacks dd → closes f p → dead f st
}.

(** One state is as good as another for the invariant when the slots, the
    streams of the live slots and the number of files are the same. *)
Definition quiet (st st' : State) : Prop :=
  slots st' = slots st
  ∧ length (files st') = length (files st)
  ∧ ∀ sid slot, slots st !! sid = Some slot → files st' !! file slot = files st !! file slot.

(** A thunk that closes nothing but dead files. *)
Definition harmless (st : State) (t : Thunk) : Prop :=
  ∀ f, t = CloseFile f → dead f st.

(** Inside [close_spider], after the slot has been popped: the invariant
    holds, the popped stream is dead, and the slots stay as they are. *)
Definition calm (f0 : nat) (sl : gmap nat SpiderSlot) (st : State) : Prop :=
  feed_inv st ∧ dead f0 st ∧ slots st = sl.

(** The line the callbacks log, as the spec words it:
    [<verb> <format> feed (<N> items, <M> bytes) in: <uri>]. *)
Definition feed_line (verb : string) (self : FeedExporter) (n m : Z) (uri : string) : string :=
  verb +:+ " " +:+ format self +:+ " feed (" +:+ int_str n +:+ " items, "
  +:+ int_str m +:+ " bytes) in: " +:+ uri.

(** What is logged when the store ends. *)
Definition completion (self : FeedExporter) (sid : nat) (n m : Z) (uri : string)
    (r : DResult) : Event :=
  match r with
  | DSuccess => EvLogMsg (feed_line "Stored" self n m uri) INFO (Some sid)
  | DFailure e => EvLogErr (DFailure e) (feed_line "Error storing" self n m uri) (Some sid)
  end.

(** *** More vocabulary: other spiders, storage resolution, callbacks *)

(** A signal that is not about the given spider at all: another spider is
    opened, passed an item or closed, or some store completes. *)
Definition foreign (sid : nat) (sig : Signal) : Prop :=
  match sig with
  | spider_opened s => spider_id s ≠ sid
  | spider_closed s _ => spider_id s ≠ sid
  | item_passed_signal _ s => spider_id s ≠ sid
  | store_completed _ _ => True
  end.

(** What [close_spider] gets for a storage:
    [self._get_storage(self.urifmt % self._get_uri_params(spider))]. *)
Definition resolve (self : FeedExporter) (spider : Spider) (now : string)
  : Result (option Storage) :=
  match pyformat (urifmt self) (Mapping (_get_uri_params self spider now)) with
  | Ret uri =>
      match storages self !! urlparse_scheme uri with
      | Some ctor => ctor uri
      | None => Raise (KeyError (urlparse_scheme uri))
      end
  | Raise e => Raise e
  end.

(** The three pairs [close_spider] adds to the Deferred of a store, in the
    order it adds them. *)
Definition attached (self : FeedExporter) (sid f : nat) (n m : Z) (uri : string)
  : list (option Thunk * option Thunk) :=
  [(Some (LogStored (feed_line "%s" self n m uri) sid), None);
   (None, Some (LogErr (feed_line "Error storing" self n m uri) sid));
   (Some (CloseFile f), Some (CloseFile f))].

(** The stream of a slot once [close_spider] has finished the export and
    rewound it. *)
Definition finished_stream (slot : SpiderSlot) (closed : bool) : TempFile :=
  {| f_data := feed_so_far (exporter slot)
               ++ finish_bytes (exp_class (exporter slot)) (exp_seen (exporter slot));
     f_pos := 0;
     f_closed := closed |}.

(** What a store reports by itself when it does not defer. *)
Definition inline_end (self : FeedExporter) (spider : Spider) (slot : SpiderSlot)
    (uri : string) (storage : Storage) : list Event :=
  match store_mode storage with
  | StoreDefers => []
  | _ => [completion self (spider_id spider) (itemcount slot)
            (Z.of_nat (length (f_data (finished_stream slot false)))) uri
            (store_outcome storage DSuccess);
          EvClose (file slot)]
  end.

(** [close_spider] goes on to the export and the store: some item was
    passed or empty feeds are stored. *)
Definition store_wanted (self : FeedExporter) (slot : SpiderSlot) : Prop :=
  itemcount slot ≠ 0%Z ∨ store_empty self = true.

End FeedExport.

(* ===================================================================== *)
(** ** scrapy/trunk/scrapy/contrib/itemsampler.py                         *)
(* ===================================================================== *)

Module ItemSampler.
Import Py.

(** A scraped item: its [guid] and the rest of it. *)
Record Item := {
  guid : string;
  fields : list (string * PyVal)
}.

(** Responses are handed through and never looked at. *)
Definition Response : Type := string.

(** The spider as the middleware sees it. *)
Record Spider := {
  domain_name : string
}.

(** The two module-level settings, read once at import:
    [ITEMSAMPLER_COUNT] (default 1) and [ITEMSAMPLER_CLOSE_DOMAIN]
    (default [False]). *)
Record Config := {
  items_per_domain : Z;
  close_domain : bool
}.

Inductive LogLevel := INFO | WARNING.

(** The process-wide services the module talks to: the stats store, the
    engine (the domains it was asked to close, oldest first), the log, the
    dispatcher's connections, and the files written. *)
Record Services := {
  stats : gmap string Z;
  engine_closed : list string;
  log : list (string * LogLevel);
  connections : list (string * string);
  disk : gmap string (gmap string Item)
}.

Definition set_stats (f : gmap string Z → gmap string Z) (sv : Services) : Services :=
  {| stats := f (stats sv); engine_closed := engine_closed sv; log := log sv;
     connections := connections sv; disk := disk sv |}.

(** [scrapyengine.close_domain(domain)]. *)
Definition engine_close_domain (domain : string) (sv : Services) : Services :=
  {| stats := stats sv; engine_closed := engine_closed sv ++ [domain]; log := log sv;
     connections := connections sv; disk := disk sv |}.

(** [log.msg(msg, level=level)]. *)
Definition log_msg (msg : string) (level : LogLevel) (sv : Services) : Services :=
  {| stats := stats sv; engine_closed := engine_closed sv; log := log sv ++ [(msg, level)];
     connections := connections sv; disk := disk sv |}.

(** [dispatcher.connect(handler, signal=signal)]. *)
Definition connect (handler signal : string) (sv : Services) : Services :=
  {| stats := stats sv; engine_closed := engine_closed sv; log := log sv;
     connections := connections sv ++ [(handler, signal)]; disk := disk sv |}.

(** [with open(filename, 'w') as f: pickle.dump(obj, f)]: the file then
    holds the pickled dict, whatever it held before. *)
Definition pickle_dump (filename : string) (obj : gmap string Item) (sv : Services) : Services :=
  {| stats := stats sv; engine_closed := engine_closed sv; log := log sv;
     connections := connections sv; disk := <[filename := obj]> (disk sv) |}.

(** Modelled from the spec: the stats store ([scrapy.stats] is not among the
    sources).  [get(path, default)] returns the stored value or the given
    default if absent. *)
Definition getpath (st : gmap string Z) (path : string) (default : Z) : Z :=
  from_option id default (st !! path).

(** Modelled from the spec: [getpath] called without a default; an absent
    path gives Python's [None]. *)
Definition getpath_nodefault (st : gmap string Z) (path : string) : option Z :=
  st !! path.

(** Modelled from the spec: [set(path, value)] stores a value. *)
Definition setpath (path : string) (value : Z) (st : gmap string Z) : gmap string Z :=
  <[path := value]> st.

(** ["%s/items_sampled" % domain]. *)
Definition items_sampled (domain : string) : string := domain +:+ "/items_sampled".

(** [not v] for what [getpath] without a default returns. *)
Definition py_not (v : option Z) : bool :=
  match v with
  | None => true
  | Some z => bool_decide (z = 0%Z)
  end.

(** [v >= n] in Python 2, where [None] is ordered below every number. *)
Definition py_ge (v : option Z) (n : Z) : bool :=
  match v with
  | None => false
  | Some z => bool_decide (n ≤ z)%Z
  end.

(** *** [ItemSamplerPipeline] *)

Record ItemSamplerPipeline := {
  filename : string;
  items : gmap string Item;
  domains_count : Z;
  empty_domains : gset string
}.

(** [ItemSamplerPipeline.__init__], given [settings['ITEMSAMPLER_FILE']]. *)
Definition ItemSamplerPipeline_init (ITEMSAMPLER_FILE : string) (sv : Services)
  : Result (ItemSamplerPipeline * Services) :=
  if bool_decide (ITEMSAMPLER_FILE = EmptyString) then Raise NotConfigured
  else Ret ({| filename := ITEMSAMPLER_FILE; items := ∅; domains_count := 0;
               empty_domains := ∅ |},
            connect "engine_stopped" "engine_stopped"
              (connect "domain_closed" "domain_closed" sv)).

Section Pipeline.
Variable cfg : Config.

Definition process_item (self : ItemSamplerPipeline) (sv : Services)
    (domain : string) (response : Response) (item : Item)
  : Item * ItemSamplerPipeline * Services :=
  let sampled := getpath (stats sv) (items_sampled domain) 0 in
  if bool_decide (sampled < items_per_domain cfg)%Z then
    let self := {| filename := filename self;
                   items := <[guid item := item]> (items self);
                   domains_count := domains_count self;
                   empty_domains := empty_domains self |} in
    let sampled := (sampled + 1)%Z in
    let sv := set_stats (setpath (items_sampled domain) sampled) sv in
    let sv := if close_domain cfg && bool_decide (sampled = items_per_domain cfg)
              then engine_close_domain domain sv else sv in
    (item, self, sv)
  else (item, self, sv).

End Pipeline.

(** [" ".join(names)]. *)
Fixpoint join_spaces (names : list string) : string :=
  match names with
  | [] => EmptyString
  | [n] => n
  | n :: rest => n +:+ " " +:+ join_spaces rest
  end.

Definition engine_stopped (self : ItemSamplerPipeline) (sv : Services) : Services :=
  let sv := pickle_dump (filename self) (items self) sv in
  if bool_decide (empty_domains self ≠ ∅) then
    log_msg ("Empty domains (no items scraped) found: "
             +:+ join_spaces (elements (empty_domains self))) WARNING sv
  else sv.

(** ["Sampled %d domains so far (%d empty)" % (count, empty)]. *)
Definition sampled_so_far (count empty : Z) : string :=
  "Sampled " +:+ int_str count +:+ " domains so far (" +:+ int_str empty +:+ " empty)".

Definition domain_closed (self : ItemSamplerPipeline) (sv : Services)
    (domain : string) (spider : Spider) (status : string)
  : ItemSamplerPipeline * Services :=
  let empty :=
    if bool_decide (status = "finished")
       && py_not (getpath_nodefault (stats sv) (items_sampled domain))
    then {[domain]} ∪ empty_domains self
    else empty_domains self in
  let count := (domains_count self + 1)%Z in
  ({| filename := filename self; items := items self; domains_count := count;
      empty_domains := empty |},
   log_msg (sampled_so_far count (Z.of_nat (size empty))) INFO sv).

(** *** [ItemSamplerMiddleware] *)

(** [ItemSamplerMiddleware.__init__]. *)
Definition ItemSamplerMiddleware_init (ITEMSAMPLER_FILE : string) : Result unit :=
  if bool_decide (ITEMSAMPLER_FILE = EmptyString) then Raise NotConfigured else Ret tt.

Section Middleware.
Variable cfg : Config.

(** [None] is the method falling off its end: no override. *)
Definition process_scrape {R} (sv : Services) (response : Response) (spider : Spider)
  : option (list R) :=
  if py_ge (getpath_nodefault (stats sv) (items_sampled (domain_name spider)))
           (items_per_domain cfg)
  then Some []
  else None.

Definition process_result {R} (sv : Services) (response : Response) (result : list R)
    (spider : Spider) : list R :=
  if py_ge (getpath_nodefault (stats sv) (items_sampled (domain_name spider)))
           (items_per_domain cfg)
  then []
  else result.

End Middleware.

(** *** Runs of the pipeline stage *)

(** One [process_item] call as the engine makes it. *)
Record Call := {
  c_domain : string;
  c_response : Response;
  c_item : Item
}.

Definition step (cfg : Config) (st : ItemSamplerPipeline * Services) (c : Call)
  : ItemSamplerPipeline * Services :=
  let '(_, self, sv) := process_item cfg st.1 st.2 (c_domain c) (c_response c) (c_item c) in
  (self, sv).

Definition process_all (cfg : Config) (calls : list Call)
    (st : ItemSamplerPipeline * Services) : ItemSamplerPipeline * Services :=
  foldl (step cfg) st calls.

(** The sampled count of a domain as [process_item] reads it. *)
Definition sampled_count (sv : Services) (domain : string) : Z :=
  getpath (stats sv) (items_sampled domain) 0.

(** The calls of a run on which [process_item] stored the record of the
    given domain: those made for it while its count was below the quota. *)
Fixpoint stored_for (cfg : Config) (domain : string) (calls : list Call)
    (st : ItemSamplerPipeline * Services) : list Item :=
  match calls with
  | [] => []
  | c :: rest =>
      (if bool_decide (c_domain c = domain)
          && bool_decide (sampled_count st.2 domain < items_per_domain cfg)%Z
       then [c_item c] else [])
      ++ stored_for cfg domain rest (step cfg st c)
  end.

(** The calls of a run made for the given domain. *)
Definition calls_for (domain : string) (calls : list Call) : list Call :=
  List.filter (λ c, bool_decide (c_domain c = domain)) calls.

Definition fresh_services : Services :=
  {| stats := ∅; engine_closed := []; log := []; connections := []; disk := ∅ |}.


(** *** Runs of the whole stage *)

(** The calls of a run on which [process_item] stored the record, in the
    order they were made. *)
Fixpoint sampled_calls (cfg : Config) (calls : list Call)
    (st : ItemSamplerPipeline * Services) : list Call :=
  match calls with
  | [] => []
  | c :: rest =>
      (if bool_decide (sampled_count st.2 (c_domain c) < items_per_domain cfg)%Z
       then [c] else [])
      ++ sampled_calls cfg rest (step cfg st c)
  end.

(** What the engine sends the stage: a record to process, a domain closed,
    the engine stopped. *)
Inductive Signal :=
  | item_scraped (c : Call)
  | domain_closed_signal (domain : string) (spider : Spider) (status : string)
  | engine_stopped_signal.

Definition deliver (cfg : Config) (st : ItemSamplerPipeline * Services) (sig : Signal)
  : ItemSamplerPipeline * Services :=
  match sig with
  | item_scraped c => step cfg st c
  | domain_closed_signal domain spider status => domain_closed st.1 st.2 domain spider status
  | engine_stopped_signal => (st.1, engine_stopped st.1 st.2)
  end.

Definition deliver_all (cfg : Config) (sigs : list Signal)
    (st : ItemSamplerPipeline * Services) : ItemSamplerPipeline * Services :=
  foldl (deliver cfg) st sigs.

(** The [domain_closed] signals among a list of signals. *)
Definition is_closed_signal (sig : Signal) : bool :=
  match sig with
  | domain_closed_signal _ _ _ => true
  | _ => false
  end.

(** A record of the given domain is processed by the signal. *)
Definition scrapes (domain : string) (sig : Signal) : Prop :=
  match sig with
  | item_scraped c => c_domain c = domain
  | _ => False
  end.

End ItemSampler.

(* ===================================================================== *)
(** ** A configuration to run the exporter on                             *)
(* ===================================================================== *)

Module Scenario.
Import Py FeedExport.

(** An exporter class that writes one line per item and no header or
    footer: a pair of braces and a newline. *)
Definition LinesItemExporter : ExporterClass :=
  {| start_bytes := [];
     item_bytes := λ _ _, [Byte.x7b; Byte.x7d; Byte.x0a];
     finish_bytes := λ _, [] |}.

(** [load_object] on the class paths of the settings below; [boto] is not
    installed. *)
Definition loader : Loader :=
  {| load_storage := λ path,
       if decide (path = "scrapy.contrib.feedexport.FileFeedStorage") then Ret FileFeedStorage
       else if decide (path = "scrapy.contrib.feedexport.StdoutFeedStorage")
            then Ret StdoutFeedStorage
       else if decide (path = "scrapy.contrib.feedexport.S3FeedStorage")
            then Ret (S3FeedStorage false)
       else if decide (path = "scrapy.contrib.feedexport.FTPFeedStorage") then Ret FTPFeedStorage
       else Raise (OtherError "ImportError");
     load_exporter := λ path,
       if decide (path = "scrapy.contrib.exporter.LinesItemExporter") then Ret LinesItemExporter
       else Raise (OtherError "ImportError");
     load_uripar := λ _, Raise (OtherError "ImportError") |}.

(** Settings with the given feed URI: the five schemes of the default
    storage registry, one export format, empty feeds not stored. *)
Definition settings (feed_uri : string) : Settings :=
  {| FEED_URI := feed_uri;
     FEED_FORMAT := "Lines";
     FEED_STORAGES_BASE :=
       {[ "" := "scrapy.contrib.feedexport.FileFeedStorage";
          "file" := "scrapy.contrib.feedexport.FileFeedStorage";
          "stdout" := "scrapy.contrib.feedexport.StdoutFeedStorage";
          "s3" := "scrapy.contrib.feedexport.S3FeedStorage";
          "ftp" := "scrapy.contrib.feedexport.FTPFeedStorage" ]};
     FEED_STORAGES := ∅;
     FEED_EXPORTERS_BASE := {[ "lines" := "scrapy.contrib.exporter.LinesItemExporter" ]};
     FEED_EXPORTERS := ∅;
     FEED_STORE_EMPTY := false;
     FEED_URI_PARAMS := "" |}.

(** The extension [__init__] builds from these settings. *)
Definition extension (feed_uri : string) : FeedExporter :=
  {| urifmt := feed_uri;
     format := "lines";
     storages := {[ "" := FileFeedStorage; "file" := FileFeedStorage;
                    "stdout" := StdoutFeedStorage; "s3" := S3FeedStorage false;
                    "ftp" := FTPFeedStorage ]};
     exporters := {[ "lines" := LinesItemExporter ]};
     store_empty := false;
     _uripar := λ params _, params |}.

(** The state [__init__] leaves: the three handlers are connected. *)
Definition started : State :=
  {| slots := ∅; files := []; deferreds := [];
     trace := [EvConnect "open_spider" "spider_opened";
               EvConnect "close_spider" "spider_closed";
               EvConnect "item_passed" "item_passed"] |}.

Definition shop : Spider :=
  {| spider_id := 7;
     attrs := {[ "name" := PStr "shop"; "proto" := PStr "gopher" ]} |}.

Definition book : Item := [("title", PStr "A book")].
Definition pen : Item := [("title", PStr "A pen")].

Definition midnight : string := "2020-01-01T00:00:00".

(** The state when the spider has been opened and the signals delivered. *)
Definition crawled (feed_uri : string) (sigs : list Signal) : State :=
  deliver_all (extension feed_uri) (spider_opened shop :: sigs) started.

(** The same extension with FEED_STORE_EMPTY on. *)
Definition extension_storing_empty (feed_uri : string) : FeedExporter :=
  {| urifmt := feed_uri;
     format := format (extension feed_uri);
     storages := storages (extension feed_uri);
     exporters := exporters (extension feed_uri);
     store_empty := true;
     _uripar := _uripar (extension feed_uri) |}.

(** Another spider, and the slot of the shop just after it was opened by
    the freshly built extension. *)
Definition blog : Spider :=
  {| spider_id := 8; attrs := {[ "name" := PStr "blog" ]} |}.

Definition shop_slot (seen : list Item) : SpiderSlot :=
  {| file := 0;
     exporter := {| exp_class := LinesItemExporter; exp_file := 0; exp_seen := seen |};
     itemcount := Z.of_nat (length seen) |}.

End Scenario.

(** A run of the sampler: three records of one domain. *)
Module SamplerScenario.
Import Py ItemSampler.

Definition sampler : ItemSamplerPipeline :=
  {| filename := "sample.pickle"; items := ∅; domains_count := 0; empty_domains := ∅ |}.

Definition record (g : string) : Item := {| guid := g; fields := [("url", PStr g)] |}.

Definition three_calls : list Call :=
  [ {| c_domain := "a.example"; c_response := ""; c_item := record "g1" |};
    {| c_domain := "a.example"; c_response := ""; c_item := record "g2" |};
    {| c_domain := "a.example"; c_response := ""; c_item := record "g3" |} ].

Definition quota (n : Z) (close : bool) : Config :=
  {| items_per_domain := n; close_domain := close |}.

End SamplerScenario.

(* ===================================================================== *)
(** ** Facts about the Python fragment                                    *)
(* ===================================================================== *)

Module PyFacts.
Import Py.

Lemma append_cons (c : ascii) (s t : string) : String c s +:+ t = String c (s +:+ t).
Proof. reflexivity. Qed.

Lemma append_nil_r (s : string) : s +:+ "" = s.
Proof. induction s as [|c s IH]; [done|]. by rewrite append_cons, IH. Qed.

Lemma length_append (a b : string) :
  String.length (a +:+ b) = String.length a + String.length b.
Proof. induction a as [|x a IH]; [done|]. rewrite append_cons. cbn. by rewrite IH. Qed.

(** A common suffix cancels. *)
Lemma append_inj_r (a b t : string) : a +:+ t = b +:+ t → a = b.
Proof.
  revert b. induction a as [|x a IH]; intros [|y b] H.
  - done.
  - apply (f_equal String.length) in H. rewrite !length_append in H. cbn in H. lia.
  - apply (f_equal String.length) in H. rewrite !length_append in H. cbn in H. lia.
  - rewrite !append_cons in H. injection H as -> H. f_equal. by apply IH.
Qed.

(** Literal text in front of a template goes to the output as it is. *)
Lemma fmt_go_text (lit rest : string) (args : FmtArgs) :
  percent_free lit = true →
  fmt_go (lit +:+ rest) Text args = rmap (String.append lit) (fmt_go rest Text args).
Proof.
  induction lit as [|c lit IH]; intros Hfree.
  - change ("" +:+ rest) with rest. by destruct (fmt_go rest Text args).
  - cbn in Hfree. apply andb_true_iff in Hfree as [Hc Hlit].
    apply bool_decide_eq_true in Hc.
    rewrite append_cons. cbn. destruct (decide (c = "%"%char)) as [->|_]; [done|].
    rewrite IH by done. by destruct (fmt_go rest Text args).
Qed.

Lemma fmt_go_literal (lit : string) :
  percent_free lit = true → fmt_go lit Text (Positional []) = Ret lit.
Proof.
  intros Hfree. rewrite <-(append_nil_r lit) at 1.
  rewrite fmt_go_text by done. cbn. by rewrite append_nil_r.
Qed.

Lemma percent_free_append (a b : string) :
  percent_free (a +:+ b) = percent_free a && percent_free b.
Proof.
  unfold percent_free. induction a as [|c a IH]; [done|].
  rewrite append_cons. cbn. by rewrite IH, andb_assoc.
Qed.

Lemma percent_free_uint (u : Decimal.uint) (s : string) :
  percent_free s = true → percent_free (NilEmpty.string_of_uint u +:+ s) = true.
Proof.
  revert s. induction u as [|u IH|u IH|u IH|u IH|u IH|u IH|u IH|u IH|u IH|u IH];
    intros s Hs; cbn [NilEmpty.string_of_uint]; rewrite ?append_cons; try done;
    (apply andb_true_iff; split; [done|by apply IH]).
Qed.

(** Decimal numerals have no percent sign. *)
Lemma percent_free_int_str (z : Z) : percent_free (int_str z) = true.
Proof.
  assert (∀ u, percent_free (NilZero.string_of_uint u) = true) as Hu.
  { intros u. unfold NilZero.string_of_uint.
    destruct u; try done; rewrite <-(append_nil_r (NilEmpty.string_of_uint _));
      by apply percent_free_uint. }
  unfold int_str, NilZero.string_of_int. destruct (Z.to_int z); [apply Hu|].
  apply andb_true_iff. split; [done|apply Hu].
Qed.

End PyFacts.

(* ===================================================================== *)
(** ** Facts about the item sampler                                       *)
(* ===================================================================== *)

Module ItemSamplerFacts.
Import Py PyFacts ItemSampler.

(** The stats path of a domain is the template of the source, formatted. *)
Lemma items_sampled_format (domain : string) :
  pyformat "%s/items_sampled" (Positional [PStr domain]) = Ret (items_sampled domain).
Proof. reflexivity. Qed.

Lemma sampled_so_far_format (count empty : Z) :
  pyformat "Sampled %d domains so far (%d empty)" (Positional [PInt count; PInt empty])
  = Ret (sampled_so_far count empty).
Proof. reflexivity. Qed.

(** Distinct domains have distinct stats paths. *)
Lemma items_sampled_inj (d1 d2 : string) : items_sampled d1 = items_sampled d2 → d1 = d2.
Proof. apply append_inj_r. Qed.

Section Stage.
Variable cfg : Config.

(** The two branches of [process_item]. *)
Lemma process_item_below self sv domain response item :
  (sampled_count sv domain < items_per_domain cfg)%Z →
  process_item cfg self sv domain response item =
    (item,
     {| filename := filename self; items := <[guid item := item]> (items self);
        domains_count := domains_count self; empty_domains := empty_domains self |},
     let sv' := set_stats (setpath (items_sampled domain) (sampled_count sv domain + 1)) sv in
     if close_domain cfg
        && bool_decide (sampled_count sv domain + 1 = items_per_domain cfg)%Z
     then engine_close_domain domain sv' else sv').
Proof.
  intros Hlt. unfold process_item, sampled_count in *.
  by rewrite bool_decide_eq_true_2.
Qed.

Lemma process_item_full self sv domain response item :
  (items_per_domain cfg ≤ sampled_count sv domain)%Z →
  process_item cfg self sv domain response item = (item, self, sv).
Proof.
  intros Hge. unfold process_item, sampled_count in *.
  rewrite bool_decide_eq_false_2; [done|lia].
Qed.

Lemma sampled_count_set sv d d' v :
  sampled_count (set_stats (setpath (items_sampled d) v) sv) d'
  = if decide (d = d') then v else sampled_count sv d'.
Proof.
  unfold sampled_count, getpath, setpath. cbn.
  destruct (decide (d = d')) as [->|Hne].
  - by rewrite lookup_insert_eq.
  - rewrite lookup_insert_ne; [done|]. intros ?%items_sampled_inj. done.
Qed.

(** What one call does to the count of a domain. *)
Lemma step_count st c d :
  sampled_count (step cfg st c).2 d =
    if bool_decide (c_domain c = d)
       && bool_decide (sampled_count st.2 d < items_per_domain cfg)%Z
    then (sampled_count st.2 d + 1)%Z else sampled_count st.2 d.
Proof.
  destruct st as [self sv]. unfold step. cbn [fst snd].
  destruct (decide (sampled_count sv (c_domain c) < items_per_domain cfg)%Z) as [Hlt|Hge].
  - rewrite process_item_below by done. cbn [snd].
    assert (∀ sv', sampled_count
              (if close_domain cfg
                  && bool_decide (sampled_count sv (c_domain c) + 1 = items_per_domain cfg)%Z
               then engine_close_domain (c_domain c) sv' else sv') d
            = sampled_count sv' d) as ->.
    { intros sv'. by destruct (_ && _). }
    rewrite sampled_count_set.
    destruct (decide (c_domain c = d)) as [<-|Hne].
    + by rewrite !bool_decide_eq_true_2.
    + by rewrite (bool_decide_eq_false_2 (c_domain c = d)).
  - rewrite process_item_full by lia. cbn [snd].
    case_bool_decide as Hd; [|done]. subst d. by rewrite bool_decide_eq_false_2.
Qed.

(** What one call does to the sample map. *)
Lemma step_items st c :
  items (step cfg st c).1 =
    if bool_decide (sampled_count st.2 (c_domain c) < items_per_domain cfg)%Z
    then <[guid (c_item c) := c_item c]> (items st.1) else items st.1.
Proof.
  destruct st as [self sv]. unfold step. cbn [fst snd].
  case_bool_decide as Hlt.
  - by rewrite process_item_below.
  - rewrite process_item_full by lia. done.
Qed.

(** What one call asks of the engine. *)
Lemma step_engine st c :
  engine_closed (step cfg st c).2 =
    engine_closed st.2 ++
      (if close_domain cfg
          && bool_decide (sampled_count st.2 (c_domain c) + 1 = items_per_domain cfg)%Z
       then [c_domain c] else []).
Proof.
  destruct st as [self sv]. unfold step. cbn [fst snd].
  destruct (decide (sampled_count sv (c_domain c) < items_per_domain cfg)%Z) as [Hlt|Hge].
  - rewrite process_item_below by done. cbn [snd].
    destruct (_ && _); cbn; by rewrite ?app_nil_r.
  - rewrite process_item_full by lia. cbn [snd].
    rewrite (bool_decide_eq_false_2 (_ = _)) by lia.
    by rewrite andb_false_r, app_nil_r.
Qed.

Lemma process_all_cons c calls st :
  process_all cfg (c :: calls) st = process_all cfg calls (step cfg st c).
Proof. done. Qed.

(** The records stored for a domain fill the gap to the quota and no more. *)
Lemma stored_for_bound d calls st :
  (Z.of_nat (length (stored_for cfg d calls st))
   ≤ Z.max 0 (items_per_domain cfg - sampled_count st.2 d))%Z.
Proof.
  revert st. induction calls as [|c calls IH]; intros st; cbn [stored_for].
  - cbn. lia.
  - rewrite length_app. specialize (IH (step cfg st c)).
    rewrite step_count in IH.
    destruct (bool_decide (c_domain c = d)); cbn [andb] in *; [|cbn; lia].
    case_bool_decide; cbn [length] in *; lia.
Qed.

(** Whatever the sample map holds at the end it held at the start or stored
    on a call of the run. *)
Lemma process_all_items calls st g r :
  items (process_all cfg calls st).1 !! g = Some r →
  items st.1 !! g = Some r
  ∨ ∃ c, c ∈ calls ∧ c_item c = r ∧ guid r = g
         ∧ r ∈ stored_for cfg (c_domain c) calls st.
Proof.
  revert st. induction calls as [|c calls IH]; intros st Hfinal.
  - by left.
  - rewrite process_all_cons in Hfinal. apply IH in Hfinal as [Hstep|(c' & Hin & Hr & Hg & Hst)].
    + rewrite step_items in Hstep. case_bool_decide as Hlt; [|by left].
      destruct (decide (guid (c_item c) = g)) as [Hguid|Hne].
      * rewrite <-Hguid, lookup_insert_eq in Hstep. injection Hstep as <-.
        right. exists c. split_and!; [left|done|done|].
        cbn [stored_for]. rewrite !bool_decide_eq_true_2 by done. left.
      * rewrite lookup_insert_ne in Hstep by done. by left.
    + right. exists c'. split_and!; [by right|done|done|].
      cbn [stored_for]. apply elem_of_app. by right.
Qed.

(** The stop requests of a run for one domain. *)
Lemma process_all_engine d calls st :
  ∃ new, engine_closed (process_all cfg calls st).2 = engine_closed st.2 ++ new
    ∧ length (List.filter (λ x, bool_decide (x = d)) new) =
        if close_domain cfg
           && bool_decide (sampled_count st.2 d < items_per_domain cfg
                           ≤ sampled_count st.2 d + Z.of_nat (length (calls_for d calls)))%Z
        then 1 else 0.
Proof.
  revert st. induction calls as [|c calls IH]; intros st.
  - exists []. split; [by rewrite app_nil_r|]. cbn.
    rewrite bool_decide_eq_false_2 by lia. by rewrite andb_false_r.
  - rewrite process_all_cons. destruct (IH (step cfg st c)) as (new & -> & Hnew).
    rewrite step_engine, <-app_assoc. eexists. split; [done|].
    rewrite List.filter_app, length_app, Hnew, step_count. clear Hnew IH.
    unfold calls_for. cbn [List.filter].
    destruct (close_domain cfg); cbn [andb]; [|done].
    destruct (decide (c_domain c = d)) as [->|Hne].
    + rewrite !(bool_decide_eq_true_2 (d = d)) by done. cbn [andb length].
      repeat case_bool_decide; cbn; rewrite ?bool_decide_eq_true_2 by done; cbn; lia.
    + rewrite !(bool_decide_eq_false_2 (c_domain c = d)) by done. cbn [andb].
      case_bool_decide; cbn; rewrite ?(bool_decide_eq_false_2 (c_domain c = d)) by done;
        cbn; repeat case_bool_decide; lia.
Qed.

(** The count of a domain moves up one record at a time and stops at the
    quota. *)
Lemma process_all_count d calls st :
  (sampled_count (process_all cfg calls st).2 d
   ≤ Z.max (sampled_count st.2 d) (items_per_domain cfg))%Z.
Proof.
  revert st. induction calls as [|c calls IH]; intros st.
  - cbn. lia.
  - rewrite process_all_cons. specialize (IH (step cfg st c)).
    rewrite step_count in IH.
    destruct (bool_decide (c_domain c = d)); cbn [andb] in IH; [|lia].
    case_bool_decide; lia.
Qed.

End Stage.

(** *** The claims *)

(** C3.  For every crawl unit and every sequence of records handed to
    [process_item], the records stored for the unit number at most the
    quota, the count in the stats store does not pass the quota (unless it
    started above it), the sample map holds nothing but what it held before
    and those stored records, and once the unit's count has reached the
    quota a call changes neither the map nor the stats store. *)
Theorem C3_quota_bounds_sample (cfg : Config) (calls : list Call)
    (self : ItemSamplerPipeline) (sv : Services) (domain : string) :
  (0 ≤ sampled_count sv domain)%Z →
  length (stored_for cfg domain calls (self, sv)) ≤ Z.to_nat (items_per_domain cfg)
  ∧ (sampled_count (process_all cfg calls (self, sv)).2 domain
     ≤ Z.max (sampled_count sv domain) (items_per_domain cfg))%Z
  ∧ (∀ g r, items (process_all cfg calls (self, sv)).1 !! g = Some r →
       items self !! g = Some r
       ∨ ∃ c, c ∈ calls ∧ c_item c = r ∧ guid r = g
              ∧ r ∈ stored_for cfg (c_domain c) calls (self, sv))
  ∧ (∀ self' sv' response item,
       (items_per_domain cfg ≤ sampled_count sv' domain)%Z →
       process_item cfg self' sv' domain response item = (item, self', sv')).
Proof.
  intros Hcount. split_and!.
  - pose proof (stored_for_bound cfg domain calls (self, sv)) as Hb. cbn [snd] in Hb. lia.
  - pose proof (process_all_count cfg domain calls (self, sv)) as Hc. cbn [snd] in Hc. lia.
  - intros g r Hfinal. by apply (process_all_items cfg calls (self, sv)).
  - intros. by apply process_item_full.
Qed.

(** C4.  [process_item] returns the record it was given, whether or not it
    kept it; with the quota reached it keeps nothing and still returns it. *)
Theorem C4_record_returned (cfg : Config) (self : ItemSamplerPipeline) (sv : Services)
    (domain : string) (response : Response) (item : Item) :
  (process_item cfg self sv domain response item).1.1 = item
  ∧ ((items_per_domain cfg ≤ sampled_count sv domain)%Z →
     process_item cfg self sv domain response item = (item, self, sv)).
Proof.
  split; [|apply process_item_full].
  destruct (decide (sampled_count sv domain < items_per_domain cfg)%Z).
  - by rewrite process_item_below.
  - by rewrite process_item_full by lia.
Qed.

(** C5.  With the close flag set, a call asks the engine to stop a unit
    exactly when it takes the unit's count to the quota, so over any run the
    engine is asked once for a unit whose count crosses the quota during the
    run and not at all otherwise. *)
Theorem C5_stop_request_once (cfg : Config) (calls : list Call)
    (self : ItemSamplerPipeline) (sv : Services) (domain : string) :
  close_domain cfg = true →
  (∀ self' sv' d response item,
     engine_closed (process_item cfg self' sv' d response item).2 =
       engine_closed sv' ++
         (if bool_decide (sampled_count sv' d + 1 = items_per_domain cfg)%Z
          then [d] else []))
  ∧ ∃ new,
      engine_closed (process_all cfg calls (self, sv)).2 = engine_closed sv ++ new
      ∧ length (List.filter (λ x, bool_decide (x = domain)) new) =
          if bool_decide (sampled_count sv domain < items_per_domain cfg
                          ≤ sampled_count sv domain
                            + Z.of_nat (length (calls_for domain calls)))%Z
          then 1 else 0.
Proof.
  intros Hflag. split.
  - intros self' sv' d response item.
    pose proof (step_engine cfg (self', sv')
                  {| c_domain := d; c_response := response; c_item := item |}) as H.
    unfold step in H. cbn [fst snd c_domain c_response c_item] in H.
    destruct (process_item cfg self' sv' d response item) as [[? ?] ?].
    cbn [snd] in *. by rewrite H, Hflag.
  - destruct (process_all_engine cfg domain calls (self, sv)) as (new & Heq & Hlen).
    exists new. by rewrite Hflag in Hlen.
Qed.

(** C6.  The middleware answers with an empty result, whatever it is given,
    for a unit whose stored count is at or above the quota; for a unit whose
    count is below the quota, or not in the store, [process_scrape] returns
    nothing and [process_result] returns its argument. *)
Theorem C6_middleware_gate (cfg : Config) (sv : Services) (response : Response)
    (spider : Spider) (R : Type) (result : list R) :
  (∀ c, getpath_nodefault (stats sv) (items_sampled (domain_name spider)) = Some c →
        (items_per_domain cfg ≤ c)%Z →
        process_scrape (R:=R) cfg sv response spider = Some []
        ∧ process_result cfg sv response result spider = [])
  ∧ (∀ c, getpath_nodefault (stats sv) (items_sampled (domain_name spider)) = Some c →
          (c < items_per_domain cfg)%Z →
          process_scrape (R:=R) cfg sv response spider = None
          ∧ process_result cfg sv response result spider = result)
  ∧ (getpath_nodefault (stats sv) (items_sampled (domain_name spider)) = None →
     process_scrape (R:=R) cfg sv response spider = None
     ∧ process_result cfg sv response result spider = result).
Proof.
  unfold process_scrape, process_result. split_and!.
  - intros c -> Hge. cbn. by rewrite bool_decide_eq_true_2.
  - intros c -> Hlt. cbn. rewrite bool_decide_eq_false_2; [done|lia].
  - by intros ->.
Qed.

(** C9.  On a closed-with-status event the unit joins the empty-domains set
    exactly when the status is "finished" and its sampled count is zero or
    not in the store; either way the domain counter goes up by one and the
    progress message, formatted from the new counter and the size of the
    set, is logged at level INFO. *)
Theorem C9_domain_closed (self : ItemSamplerPipeline) (sv : Services)
    (domain : string) (spider : Spider) (status : string) :
  (status = "finished"
   ∧ (stats sv !! items_sampled domain = None ∨ stats sv !! items_sampled domain = Some 0%Z) →
   empty_domains (domain_closed self sv domain spider status).1
   = {[domain]} ∪ empty_domains self)
  ∧ (¬ (status = "finished"
        ∧ (stats sv !! items_sampled domain = None
           ∨ stats sv !! items_sampled domain = Some 0%Z)) →
     empty_domains (domain_closed self sv domain spider status).1 = empty_domains self)
  ∧ domains_count (domain_closed self sv domain spider status).1
    = (domains_count self + 1)%Z
  ∧ (∃ msg,
       pyformat "Sampled %d domains so far (%d empty)"
         (Positional
            [PInt (domains_count (domain_closed self sv domain spider status).1);
             PInt (Z.of_nat
                     (size (empty_domains (domain_closed self sv domain spider status).1)))])
       = Ret msg
       ∧ log (domain_closed self sv domain spider status).2 = log sv ++ [(msg, INFO)]).
Proof.
  unfold domain_closed, getpath_nodefault. cbn [fst snd empty_domains domains_count log log_msg].
  split_and!.
  - intros [-> Hcount]. rewrite bool_decide_eq_true_2 by done. cbn [andb].
    destruct Hcount as [-> | ->]; done.
  - intros Hnot. destruct (bool_decide (status = "finished")) eqn:Hst; [|done].
    apply bool_decide_eq_true in Hst. cbn [andb].
    destruct (stats sv !! items_sampled domain) as [z|] eqn:Hz; cbn.
    + case_bool_decide as Hz0; [|done]. subst z. destruct Hnot. by split; [|right].
    + destruct Hnot. by split; [|left].
  - done.
  - eexists. split; [apply sampled_so_far_format|done].
Qed.


(** The witness of C3: quota two, three records of one domain. *)
Lemma C3_quota_bounds_sample_witness :
  length (stored_for (SamplerScenario.quota 2 false) "a.example"
            SamplerScenario.three_calls (SamplerScenario.sampler, fresh_services))
  ≤ Z.to_nat (items_per_domain (SamplerScenario.quota 2 false)).
Proof.
  apply (C3_quota_bounds_sample (SamplerScenario.quota 2 false)
           SamplerScenario.three_calls SamplerScenario.sampler fresh_services "a.example").
  vm_compute. discriminate.
Defined.

(** The witness of C5: quota one with the close flag, three records. *)
Lemma C5_stop_request_once_witness :
  ∃ new,
    engine_closed
      (process_all (SamplerScenario.quota 1 true) SamplerScenario.three_calls
         (SamplerScenario.sampler, fresh_services)).2
    = engine_closed fresh_services ++ new
    ∧ length (List.filter (λ x, bool_decide (x = "a.example")) new) =
        if bool_decide
             (sampled_count fresh_services "a.example"
              < items_per_domain (SamplerScenario.quota 1 true)
              ≤ sampled_count fresh_services "a.example"
                + Z.of_nat (length (calls_for "a.example" SamplerScenario.three_calls)))%Z
        then 1 else 0.
Proof.
  apply (C5_stop_request_once (SamplerScenario.quota 1 true)
           SamplerScenario.three_calls SamplerScenario.sampler fresh_services "a.example").
  reflexivity.
Defined.

(** *** More about the stage: which records are kept *)

Lemma calls_for_cons d c calls :
  calls_for d (c :: calls)
  = if bool_decide (c_domain c = d) then c :: calls_for d calls else calls_for d calls.
Proof. done. Qed.

(** The records stored for a domain are a prefix of those handed in for
    it, and the count follows. *)
Lemma stored_for_take (cfg : Config) (d : string) (calls : list Call)
    (st : ItemSamplerPipeline * Services) :
  stored_for cfg d calls st
  = take (Z.to_nat (items_per_domain cfg - sampled_count st.2 d))
         (c_item <$> calls_for d calls)
  ∧ sampled_count (process_all cfg calls st).2 d
    = (sampled_count st.2 d + Z.of_nat (length (stored_for cfg d calls st)))%Z.
Proof.
  revert st. induction calls as [|c calls IH]; intros st.
  - cbn. split; [by rewrite take_nil|lia].
  - destruct (IH (step cfg st c)) as [IHs IHc]. rewrite process_all_cons, IHc.
    cbn [stored_for]. rewrite IHs, calls_for_cons, step_count. clear IH IHs IHc.
    destruct (bool_decide (c_domain c = d)); cbn [andb]; [|split; [done|cbn; lia]].
    case_bool_decide as Hlt; cbn [app fmap list_fmap].
    + replace (Z.to_nat (items_per_domain cfg - sampled_count st.2 d))
        with (S (Z.to_nat (items_per_domain cfg - (sampled_count st.2 d + 1)))) by lia.
      split; [done|]. cbn [take length]. lia.
    + replace (Z.to_nat (items_per_domain cfg - sampled_count st.2 d)) with 0 by lia.
      split; [done|]. cbn. lia.
Qed.


Lemma sampled_calls_for cfg d calls st :
  stored_for cfg d calls st = c_item <$> calls_for d (sampled_calls cfg calls st).
Proof.
  revert st. induction calls as [|c calls IH]; intros st; [done|].
  cbn [stored_for sampled_calls]. unfold calls_for. rewrite List.filter_app.
  fold (calls_for d (sampled_calls cfg calls (step cfg st c))).
  rewrite fmap_app, <-IH. f_equal.
  destruct (decide (c_domain c = d)) as [Hd|Hd].
  - rewrite (bool_decide_eq_true_2 _ Hd). cbn [andb]. rewrite Hd.
    case_bool_decide; cbn; [|done]. by rewrite (bool_decide_eq_true_2 _ Hd).
  - rewrite (bool_decide_eq_false_2 _ Hd). cbn [andb].
    case_bool_decide; cbn; [|done]. by rewrite (bool_decide_eq_false_2 _ Hd).
Qed.

Lemma process_all_sampled cfg calls st :
  items (process_all cfg calls st).1
  = foldl (λ m c, <[guid (c_item c) := c_item c]> m) (items st.1) (sampled_calls cfg calls st).
Proof.
  revert st. induction calls as [|c calls IH]; intros st; [done|].
  rewrite process_all_cons, IH. cbn [sampled_calls]. rewrite foldl_app, step_items.
  by case_bool_decide.
Qed.

Lemma process_all_filename cfg calls st :
  filename (process_all cfg calls st).1 = filename st.1.
Proof.
  revert st. induction calls as [|c calls IH]; intros st; [done|].
  rewrite process_all_cons, IH. destruct st as [self sv]. unfold step, process_item.
  cbn [fst snd]. by case_bool_decide.
Qed.

(** X2.  When the engine stops after a run, the sample file holds exactly
    the map the stage started with and the records stored during the run,
    put in under their guids in the order they were stored (so a later one
    wins); the records stored for a domain are those of its sampled calls. *)
Theorem persisted_sample (cfg : Config) (calls : list Call)
    (self : ItemSamplerPipeline) (sv : Services) :
  disk (engine_stopped (process_all cfg calls (self, sv)).1
          (process_all cfg calls (self, sv)).2) !! filename self
  = Some (foldl (λ m c, <[guid (c_item c) := c_item c]> m) (items self)
            (sampled_calls cfg calls (self, sv)))
  ∧ ∀ d, stored_for cfg d calls (self, sv)
         = c_item <$> calls_for d (sampled_calls cfg calls (self, sv)).
Proof.
  split; [|intros d; apply sampled_calls_for].
  pose proof (process_all_sampled cfg calls (self, sv)) as Hitems.
  pose proof (process_all_filename cfg calls (self, sv)) as Hname.
  cbn [fst] in Hitems, Hname. rewrite <-Hitems, <-Hname.
  unfold engine_stopped. case_bool_decide; cbn; by rewrite lookup_insert_eq.
Qed.

(** The entry of a domain in the stats store after a run: untouched when
    nothing was stored for it, its count otherwise. *)
Lemma process_all_stats cfg d calls st :
  stats (process_all cfg calls st).2 !! items_sampled d
  = if bool_decide (stored_for cfg d calls st = [])
    then stats st.2 !! items_sampled d
    else Some (sampled_count st.2 d + Z.of_nat (length (stored_for cfg d calls st)))%Z.
Proof.
  revert st. induction calls as [|c calls IH]; intros st; [done|].
  rewrite process_all_cons, IH. cbn [stored_for]. rewrite step_count. clear IH.
  destruct (decide (c_domain c = d)) as [Hd|Hd].
  - rewrite (bool_decide_eq_true_2 _ Hd). cbn [andb].
    destruct (decide (sampled_count st.2 d < items_per_domain cfg)%Z) as [Hlt|Hge].
    + rewrite (bool_decide_eq_true_2 _ Hlt). cbn [app].
      rewrite (bool_decide_eq_false_2 (_ :: _ = [])) by done.
      assert (stats (step cfg st c).2 !! items_sampled d = Some (sampled_count st.2 d + 1)%Z)
        as Hstep.
      { destruct st as [self sv]. unfold step. cbn [fst snd] in *. subst d.
        rewrite process_item_below by done. cbn [snd].
        destruct (_ && _); cbn; unfold setpath; by rewrite lookup_insert_eq. }
      rewrite Hstep. case_bool_decide as Hnil; rewrite ?Hnil; cbn [length]; f_equal; lia.
    + rewrite (bool_decide_eq_false_2 _ Hge). cbn [app].
      assert (step cfg st c = st) as ->; [|done].
      destruct st as [self sv]. unfold step. cbn [fst snd] in *. subst d.
      rewrite process_item_full by lia. done.
  - rewrite (bool_decide_eq_false_2 _ Hd). cbn [andb app].
    assert (stats (step cfg st c).2 !! items_sampled d = stats st.2 !! items_sampled d)
      as ->; [|done].
    destruct st as [self sv]. unfold step, process_item. cbn [fst snd].
    case_bool_decide; [|done]. cbn [snd].
    destruct (_ && _); cbn; unfold setpath; rewrite lookup_insert_ne; try done;
      by intros ?%items_sampled_inj.
Qed.

(** X3.  The middleware and the stage together: from a stats store with no
    entry for the domain, the middleware drops results and extraction exactly
    when the quota is at least one and at least as many records as the quota
    have been processed for the domain.  With a quota of zero or less nothing
    is ever sampled and the middleware never drops anything. *)
Theorem middleware_after_run (cfg : Config) (calls : list Call)
    (self : ItemSamplerPipeline) (sv : Services) (response : Response)
    (spider : Spider) (R : Type) (result : list R) :
  stats sv !! items_sampled (domain_name spider) = None →
  process_result cfg (process_all cfg calls (self, sv)).2 response result spider
  = (if bool_decide (1 ≤ items_per_domain cfg
                     ≤ Z.of_nat (length (calls_for (domain_name spider) calls)))%Z
     then [] else result)
  ∧ process_scrape (R:=R) cfg (process_all cfg calls (self, sv)).2 response spider
    = (if bool_decide (1 ≤ items_per_domain cfg
                       ≤ Z.of_nat (length (calls_for (domain_name spider) calls)))%Z
       then Some [] else None).
Proof.
  intros Hnone. unfold process_result, process_scrape, getpath_nodefault.
  rewrite process_all_stats.
  destruct (stored_for_take cfg (domain_name spider) calls (self, sv)) as [Hpre _].
  assert (sampled_count sv (domain_name spider) = 0%Z) as Hzero.
  { unfold sampled_count, getpath. by rewrite Hnone. }
  cbn [snd] in *. rewrite Hzero, Z.sub_0_r in Hpre.
  assert (length (stored_for cfg (domain_name spider) calls (self, sv))
          = Z.to_nat (items_per_domain cfg) `min`
              length (calls_for (domain_name spider) calls)) as Hlen.
  { rewrite Hpre, length_take, length_fmap. done. }
  rewrite Hzero, Hnone. case_bool_decide as Hnil.
  - rewrite Hnil in Hlen. cbn in Hlen. cbn [py_ge].
    rewrite bool_decide_eq_false_2 by lia. done.
  - assert (length (stored_for cfg (domain_name spider) calls (self, sv)) ≠ 0) as Hpos.
    { by destruct (stored_for _ _ _ _). }
    cbn [py_ge]. repeat case_bool_decide; try done; lia.
Qed.

(** *** More about the stage: the closed and the empty domains *)

Lemma signals_cons cfg sig sigs st :
  deliver_all cfg (sig :: sigs) st = deliver_all cfg sigs (deliver cfg st sig).
Proof. done. Qed.

(** X4.  Over any sequence of signals the domain counter counts the
    closed-domain signals, no domain ever leaves the empty set, and a domain
    in the set was either there from the start or was closed with status
    "finished" at a moment when its sampled count was zero or absent. *)
Theorem empty_domains_sound (cfg : Config) (sigs : list Signal)
    (st : ItemSamplerPipeline * Services) (d : string) :
  domains_count (deliver_all cfg sigs st).1
  = (domains_count st.1 + Z.of_nat (length (List.filter is_closed_signal sigs)))%Z
  ∧ empty_domains st.1 ⊆ empty_domains (deliver_all cfg sigs st).1
  ∧ (d ∈ empty_domains (deliver_all cfg sigs st).1 →
     d ∈ empty_domains st.1
     ∨ ∃ before spider after,
         sigs = before ++ domain_closed_signal d spider "finished" :: after
         ∧ py_not (getpath_nodefault (stats (deliver_all cfg before st).2) (items_sampled d))
           = true).
Proof.
  revert st. induction sigs as [|sig sigs IH]; intros st.
  - cbn. split_and!; [lia|done|by left].
  - rewrite signals_cons. destruct (IH (deliver cfg st sig)) as (IHc & IHs & IHd).
    clear IH. rewrite IHc. clear IHc.
    assert (empty_domains st.1 ⊆ empty_domains (deliver cfg st sig).1
            ∧ domains_count (deliver cfg st sig).1
              = (domains_count st.1 + if is_closed_signal sig then 1 else 0)%Z
            ∧ (d ∈ empty_domains (deliver cfg st sig).1 →
               d ∈ empty_domains st.1
               ∨ ∃ spider, sig = domain_closed_signal d spider "finished"
                   ∧ py_not (getpath_nodefault (stats st.2) (items_sampled d)) = true))
      as (Hsub & Hcount & Hin).
    { destruct sig as [c|d' sp status|]; cbn [deliver is_closed_signal].
      - destruct st as [self sv]. unfold step, process_item. cbn [fst snd].
        case_bool_decide; cbn; (split_and!; [done|lia|by left]).
      - unfold domain_closed. cbn [fst empty_domains domains_count].
        destruct (bool_decide (status = "finished") && py_not _) eqn:Hcond.
        + split_and!; [set_solver|done|]. intros [->%elem_of_singleton|Hd]%elem_of_union;
            [|by left]. apply andb_true_iff in Hcond as [Hst%bool_decide_eq_true Hnot].
          subst status. right. by exists sp.
        + split_and!; [done|done|by left].
      - cbn. split_and!; [done|lia|by left]. }
    rewrite Hcount. split_and!.
    + cbn [List.filter]. destruct (is_closed_signal sig); cbn [length]; lia.
    + set_solver.
    + intros Hfin. destruct (IHd Hfin) as [Hhere|(before & sp & after & -> & Hnot)].
      * destruct (Hin Hhere) as [?|(sp & -> & Hnot)]; [by left|].
        right. by exists [], sp, sigs.
      * right. by exists (sig :: before), sp, after.
Qed.

Lemma deliver_count cfg sig st d :
  sampled_count (deliver cfg st sig).2 d
  = match sig with
    | item_scraped c => sampled_count (step cfg st c).2 d
    | _ => sampled_count st.2 d
    end.
Proof.
  destruct sig as [c|d' sp status|]; [done|done|].
  cbn [deliver snd]. unfold engine_stopped. by case_bool_decide.
Qed.

Lemma scraped_count cfg sigs st d :
  (1 ≤ items_per_domain cfg)%Z →
  (0 ≤ sampled_count st.2 d)%Z →
  Exists (scrapes d) sigs ∨ (1 ≤ sampled_count st.2 d)%Z →
  (1 ≤ sampled_count (deliver_all cfg sigs st).2 d)%Z.
Proof.
  intros Hq. revert st. induction sigs as [|sig sigs IH]; intros st H0 Hor.
  - destruct Hor as [Hex|H1]; [by apply Exists_nil in Hex|done].
  - rewrite signals_cons.
    assert ((0 ≤ sampled_count (deliver cfg st sig).2 d)%Z
            ∧ (sampled_count st.2 d ≤ sampled_count (deliver cfg st sig).2 d)%Z
            ∧ (scrapes d sig → 1 ≤ sampled_count (deliver cfg st sig).2 d)%Z)
      as (H0' & Hmono & Hscr).
    { rewrite deliver_count. destruct sig as [c|d' sp status|]; cbn [scrapes];
        [|split_and!; [done|lia|done]..].
      rewrite step_count. split_and!.
      - destruct (_ && _); lia.
      - destruct (_ && _); lia.
      - intros Hd. rewrite (bool_decide_eq_true_2 _ Hd). cbn [andb].
        case_bool_decide; lia. }
    apply IH; [done|]. destruct Hor as [Hex|H1]; [|right; lia].
    apply Exists_cons in Hex as [Hhere|Hlater]; [right; by apply Hscr|by left].
Qed.

(** X5.  With a quota of at least one, a domain for which a record has been
    processed is not put into the empty set when it is closed, whatever
    its status. *)
Theorem scraped_domain_not_empty (cfg : Config) (sigs : list Signal)
    (st : ItemSamplerPipeline * Services) (d : string) (spider : Spider) (status : string) :
  (1 ≤ items_per_domain cfg)%Z →
  (0 ≤ sampled_count st.2 d)%Z →
  Exists (scrapes d) sigs →
  empty_domains (deliver cfg (deliver_all cfg sigs st)
                   (domain_closed_signal d spider status)).1
  = empty_domains (deliver_all cfg sigs st).1.
Proof.
  intros Hq H0 Hex.
  pose proof (scraped_count cfg sigs st d Hq H0 (or_introl Hex)) as H1.
  cbn [deliver]. unfold domain_closed. cbn [fst empty_domains].
  unfold sampled_count, getpath, getpath_nodefault in *.
  destruct (stats (deliver_all cfg sigs st).2 !! items_sampled d) as [z|]; cbn in *; [|lia].
  rewrite (bool_decide_eq_false_2 (z = 0%Z)) by lia. by rewrite andb_false_r.
Qed.

(** X6.  Processing records touches nothing but the sample map, the counts
    of the domains the records belong to and, with the close flag set, the
    engine: the log, the files, the connections, the file name, the domain
    counter and the empty set stay as they are, and with the flag off the
    engine is never asked to close a domain. *)
Theorem process_all_frame (cfg : Config) (calls : list Call)
    (st : ItemSamplerPipeline * Services) :
  log (process_all cfg calls st).2 = log st.2
  ∧ disk (process_all cfg calls st).2 = disk st.2
  ∧ connections (process_all cfg calls st).2 = connections st.2
  ∧ filename (process_all cfg calls st).1 = filename st.1
  ∧ domains_count (process_all cfg calls st).1 = domains_count st.1
  ∧ empty_domains (process_all cfg calls st).1 = empty_domains st.1
  ∧ (close_domain cfg = false →
     engine_closed (process_all cfg calls st).2 = engine_closed st.2)
  ∧ (∀ path, (∀ c, c ∈ calls → path ≠ items_sampled (c_domain c)) →
             stats (process_all cfg calls st).2 !! path = stats st.2 !! path).
Proof.
  revert st. induction calls as [|c calls IH]; intros st; [done|].
  rewrite process_all_cons.
  destruct (IH (step cfg st c)) as (-> & -> & -> & -> & -> & -> & Heng & Hstats). clear IH.
  pose proof (step_engine cfg st c) as Hstep.
  destruct st as [self sv]. unfold step in *. unfold process_item in *. cbn [fst snd] in *.
  split_and!; try (by case_bool_decide; [destruct (_ && _)|]).
  - intros Hoff. rewrite (Heng Hoff), Hstep, Hoff. cbn. by rewrite app_nil_r.
  - intros path Hpath. rewrite Hstats by (intros c' Hc'; apply Hpath; by right).
    case_bool_decide; [|done]. cbn [snd].
    destruct (_ && _); cbn; unfold setpath; rewrite lookup_insert_ne; try done;
      intros Heq; by apply (Hpath c); [left|].
Qed.

(** The witness of X3: quota two, three records of one domain, a stats
    store without entries. *)
Lemma middleware_after_run_witness :
  process_result (SamplerScenario.quota 2 false)
    (process_all (SamplerScenario.quota 2 false) SamplerScenario.three_calls
       (SamplerScenario.sampler, fresh_services)).2
    "" [SamplerScenario.record "g4"] {| domain_name := "a.example" |}
  = (if bool_decide (1 ≤ items_per_domain (SamplerScenario.quota 2 false)
                     ≤ Z.of_nat (length (calls_for "a.example" SamplerScenario.three_calls)))%Z
     then [] else [SamplerScenario.record "g4"])
  ∧ process_scrape (R:=Item) (SamplerScenario.quota 2 false)
      (process_all (SamplerScenario.quota 2 false) SamplerScenario.three_calls
         (SamplerScenario.sampler, fresh_services)).2
      "" {| domain_name := "a.example" |}
    = (if bool_decide (1 ≤ items_per_domain (SamplerScenario.quota 2 false)
                       ≤ Z.of_nat (length (calls_for "a.example" SamplerScenario.three_calls)))%Z
       then Some [] else None).
Proof.
  apply (middleware_after_run (SamplerScenario.quota 2 false) SamplerScenario.three_calls
           SamplerScenario.sampler fresh_services "" {| domain_name := "a.example" |}
           Item [SamplerScenario.record "g4"]).
  reflexivity.
Defined.

(** The witness of X5: quota one, the three records, then the domain is
    closed as finished. *)
Lemma scraped_domain_not_empty_witness :
  empty_domains
    (deliver (SamplerScenario.quota 1 false)
       (deliver_all (SamplerScenario.quota 1 false)
          (item_scraped <$> SamplerScenario.three_calls)
          (SamplerScenario.sampler, fresh_services))
       (domain_closed_signal "a.example" {| domain_name := "a.example" |} "finished")).1
  = empty_domains
      (deliver_all (SamplerScenario.quota 1 false)
         (item_scraped <$> SamplerScenario.three_calls)
         (SamplerScenario.sampler, fresh_services)).1.
Proof.
  apply (scraped_domain_not_empty (SamplerScenario.quota 1 false)
           (item_scraped <$> SamplerScenario.three_calls)
           (SamplerScenario.sampler, fresh_services) "a.example"
           {| domain_name := "a.example" |} "finished").
  - cbn. lia.
  - vm_compute. discriminate.
  - apply Exists_cons_hd. reflexivity.
Defined.

End ItemSamplerFacts.

(* ===================================================================== *)
(** ** Facts about the feed exporter                                      *)
(* ===================================================================== *)

Module FeedExportFacts.
Import Py PyFacts FeedExport.

(** *** Loading a registry *)

Section Loading.
Context {A : Type} (load_object : string → Result A).

Lemma load_each_Ret (conf : list (string * string)) (d : gmap string A) :
  NoDup conf.*1 →
  (∀ k v e, (k, v) ∈ conf → load_object v = Raise e → e = NotConfigured) →
  ∃ d', load_each load_object conf d = Ret d'
        ∧ ∀ k, d' !! k = loaded load_object (list_to_map conf) d k.
Proof.
  revert d. induction conf as [|[k0 v0] conf IH]; intros d Hnd Hok.
  - exists d. split; [done|]. intros k. unfold loaded. cbn. by rewrite lookup_empty.
  - apply NoDup_cons in Hnd as [Hk0 Hnd].
    assert (∀ k v e, (k, v) ∈ conf → load_object v = Raise e → e = NotConfigured) as Hok'.
    { intros k v e Hin. apply (Hok k). by right. }
    assert ((list_to_map conf : gmap string string) !! k0 = None) as Hfresh.
    { by apply not_elem_of_list_to_map_1. }
    rewrite list_to_map_cons. cbn [load_each].
    destruct (load_object v0) as [obj|e] eqn:Hload.
    + destruct (IH (<[k0 := obj]> d) Hnd Hok') as (d' & -> & Hd'). exists d'. split; [done|].
      intros k. rewrite Hd'. unfold loaded. destruct (decide (k = k0)) as [->|Hne].
      * by rewrite Hfresh, !lookup_insert_eq, Hload.
      * by rewrite !(lookup_insert_ne _ k0 k).
    + assert (e = NotConfigured) as -> by (eapply (Hok k0); [left|done]).
      destruct (IH d Hnd Hok') as (d' & -> & Hd'). exists d'. split; [done|].
      intros k. rewrite Hd'. unfold loaded. destruct (decide (k = k0)) as [->|Hne].
      * by rewrite Hfresh, lookup_insert_eq, Hload.
      * by rewrite (lookup_insert_ne _ k0 k).
Qed.

Lemma load_each_Raise (conf : list (string * string)) (d : gmap string A) k v e :
  (k, v) ∈ conf → load_object v = Raise e → e ≠ NotConfigured →
  ∃ k' v' e', load_each load_object conf d = Raise e'
              ∧ e' ≠ NotConfigured ∧ (k', v') ∈ conf ∧ load_object v' = Raise e'.
Proof.
  revert d. induction conf as [|[k0 v0] conf IH]; intros d Hin Hload Hne.
  - by apply elem_of_nil in Hin.
  - cbn [load_each]. destruct (load_object v0) as [obj|e0] eqn:Hload0.
    + apply elem_of_cons in Hin as [[= -> ->]|Hin]; [congruence|].
      destruct (IH (<[k0 := obj]> d) Hin Hload Hne) as (k' & v' & e' & -> & ? & ? & ?).
      exists k', v', e'. split_and!; [done|done|by right|done].
    + destruct (decide (e0 = NotConfigured)) as [->|Hne0].
      * apply elem_of_cons in Hin as [[= -> ->]|Hin]; [congruence|].
        destruct (IH d Hin Hload Hne) as (k' & v' & e' & -> & ? & ? & ?).
        exists k', v', e'. split_and!; [done|done|by right|done].
      * exists k0, v0, e0. split_and!; [by destruct e0|done|left|done].
Qed.

End Loading.

(** C8.  Registry loading looks every key up in the override mapping first
    and in the base mapping otherwise; when no value fails to load other
    than by the not-configured condition, the registry holds exactly the
    keys whose value loaded, each with what it loaded to, so a key whose
    value raised not-configured is left out; and when some value fails in
    another way the load raises such a failure instead of returning. *)
Theorem C8_load_components (A : Type) (load_object : string → Result A)
    (base override : gmap string string) :
  (∀ k, updated base override !! k
        = match override !! k with Some v => Some v | None => base !! k end)
  ∧ ((∀ k v e, updated base override !! k = Some v →
               load_object v = Raise e → e = NotConfigured) →
     ∃ d, _load_components load_object base override = Ret d
          ∧ ∀ k, d !! k = match updated base override !! k with
                          | Some v => match load_object v with
                                      | Ret obj => Some obj
                                      | Raise _ => None
                                      end
                          | None => None
                          end)
  ∧ (∀ k v e, updated base override !! k = Some v →
              load_object v = Raise e → e ≠ NotConfigured →
     ∃ k' v' e', _load_components load_object base override = Raise e'
                 ∧ e' ≠ NotConfigured
                 ∧ updated base override !! k' = Some v'
                 ∧ load_object v' = Raise e').
Proof.
  split_and!.
  - intros k. unfold updated. rewrite lookup_union.
    destruct (override !! k), (base !! k); done.
  - intros Hok. unfold _load_components.
    destruct (load_each_Ret load_object (map_to_list (updated base override)) ∅)
      as (d & Hd & Hlook).
    + apply NoDup_fst_map_to_list.
    + intros k v e Hin. apply elem_of_map_to_list in Hin. by apply (Hok k).
    + exists d. split; [done|]. intros k. rewrite Hlook. unfold loaded.
      rewrite list_to_map_to_list, lookup_empty. done.
  - intros k v e Hin Hload Hne. unfold _load_components.
    apply elem_of_map_to_list in Hin.
    destruct (load_each_Raise load_object _ ∅ k v e Hin Hload Hne)
      as (k' & v' & e' & Heq & ? & Hin' & ?).
    exists k', v', e'. split_and!; [done|done|by apply elem_of_map_to_list|done].
Qed.

(** *** Pre- and postconditions for [M] *)

Lemma hoare_ret {A} (P : State → Prop) (a : A) Q E :
  (∀ st, P st → Q a st) → hoare P (ret a) Q E.
Proof. intros H st HP. by apply H. Qed.

Lemma hoare_raise {A} (P : State → Prop) e (Q : A → State → Prop) (E : State → Prop) :
  (∀ st, P st → E st) → hoare P (raise e) Q E.
Proof. intros H st HP. by apply H. Qed.

Lemma hoare_lift {A} (P : State → Prop) (r : Result A) Q (E : State → Prop) :
  (∀ a st, r = Ret a → P st → Q a st) → (∀ st, P st → E st) → hoare P (lift r) Q E.
Proof. intros HQ HE st HP. unfold lift. destruct r; [by apply HQ|by apply HE]. Qed.

Lemma hoare_gets {A} (P : State → Prop) (f : State → A) Q E :
  (∀ st, P st → Q (f st) st) → hoare P (gets f) Q E.
Proof. intros H st HP. by apply H. Qed.

Lemma hoare_modify (P : State → Prop) (f : State → State) Q E :
  (∀ st, P st → Q tt (f st)) → hoare P (modify f) Q E.
Proof. intros H st HP. by apply H. Qed.

Lemma hoare_bind {A B} (P : State → Prop) (m : M A) (k : A → M B) Q R E :
  hoare P m Q E → (∀ a, hoare (Q a) (k a) R E) → hoare P (bind m k) R E.
Proof.
  intros Hm Hk st HP. unfold bind. specialize (Hm st HP).
  destruct (m st) as [[a|e] st']; [by apply Hk|done].
Qed.

(** *** The representation invariant *)

Lemma quiet_trans st1 st2 st3 : quiet st1 st2 → quiet st2 st3 → quiet st1 st3.
Proof.
  intros (Hs1 & Hl1 & Hf1) (Hs2 & Hl2 & Hf2). split_and!; [congruence|congruence|].
  intros sid slot Hslot. rewrite <-(Hf1 sid slot Hslot). apply (Hf2 sid).
  by rewrite Hs1.
Qed.

Lemma quiet_dead f st st' : quiet st st' → dead f st → dead f st'.
Proof. intros (Hs & Hl & _) [Hlt Hlive]. split; [lia|]. by rewrite Hs. Qed.

Lemma quiet_inv st st' :
  quiet st st' → deferreds st' = deferreds st → feed_inv st → feed_inv st'.
Proof.
  intros Hq Hd [Hslot Hdist Hdef]. pose proof Hq as (Hs & Hl & Hf). split.
  - intros sid slot Hin. rewrite Hs in Hin. rewrite (Hf sid slot Hin). by apply (Hslot sid).
  - rewrite Hs. apply Hdist.
  - rewrite Hd. intros d dd p f ? ? ?. apply (quiet_dead f st); eauto.
Qed.

Lemma quiet_emit e st : quiet st (emit e st).
Proof. done. Qed.

Lemma quiet_alter g f st : dead f st → quiet st (set_files (alter g f) st).
Proof.
  intros [Hlt Hlive]. split_and!; [done|cbn; by rewrite length_alter|].
  intros sid slot Hslot. cbn. apply list_lookup_alter_ne. intros ->. by eapply Hlive.
Qed.

Lemma run_thunk_quiet t r st :
  harmless st t → quiet st (run_thunk t r st).2 ∧ deferreds (run_thunk t r st).2 = deferreds st.
Proof.
  intros Hok. destruct t as [logfmt sp|msg sp|f]; cbn.
  - destruct (pyformat _ _); done.
  - done.
  - split; [|done]. apply (quiet_trans _ (set_files (alter file_close f) st)).
    + apply quiet_alter. by apply Hok.
    + apply quiet_emit.
Qed.

Lemma run_chain_quiet cbs r st :
  (∀ p f, p ∈ cbs → closes f p → dead f st) →
  quiet st (run_chain cbs r st).2 ∧ deferreds (run_chain cbs r st).2 = deferreds st.
Proof.
  revert r st. induction cbs as [|[cb eb] cbs IH]; intros r st Hok; [done|].
  cbn [run_chain].
  assert (∀ p f, p ∈ cbs → closes f p → dead f st) as Hrest.
  { intros p f Hin. apply Hok. by right. }
  destruct (match r with DSuccess => cb | DFailure _ => eb end) as [t|] eqn:Ht; [|by apply IH].
  assert (harmless st t) as Hharm.
  { intros f ->. apply (Hok (cb, eb)); [left|]. destruct r; [by left|by right]. }
  destruct (run_thunk_quiet t r st Hharm) as [Hq Hd].
  destruct (run_thunk t r st) as [r' st'] eqn:Hrun. cbn [snd] in *.
  destruct (IH r' st') as [Hq' Hd'].
  { intros p f Hin Hc. eapply quiet_dead; [done|]. by eapply Hrest. }
  split; [by eapply quiet_trans|congruence].
Qed.

(** *** Deferreds keep the invariant *)

Lemma quiet_set_deferreds g st : quiet st (set_deferreds g st).
Proof. done. Qed.

Lemma dead_set_deferreds g f st : dead f (set_deferreds g st) ↔ dead f st.
Proof. done. Qed.

(** Replacing a Deferred by one with fewer callbacks keeps the invariant. *)
Lemma inv_insert_deferred d r cbs st :
  feed_inv st →
  (∀ p f, p ∈ cbs → closes f p → dead f st) →
  feed_inv (set_deferreds <[d := {| d_result := r; d_callbacks := cbs |}]> st).
Proof.
  intros [Hslot Hdist Hdef] Hcbs. split; [done|done|].
  intros d' dd p f Hlook Hin Hc. cbn in Hlook. apply dead_set_deferreds.
  destruct (decide (d = d')) as [<-|Hne].
  - destruct (decide (d < length (deferreds st))) as [Hlt|Hge].
    + rewrite list_lookup_insert_eq in Hlook by done. injection Hlook as <-. by eapply Hcbs.
    + rewrite list_insert_ge in Hlook by lia. by eapply Hdef.
  - rewrite list_lookup_insert_ne in Hlook by done. by eapply Hdef.
Qed.

Lemma runCallbacks_inv d st :
  feed_inv st →
  feed_inv (runCallbacks d st).2 ∧ quiet st (runCallbacks d st).2
  ∧ (runCallbacks d st).1 = Ret tt.
Proof.
  intros Hinv. unfold runCallbacks.
  destruct (deferreds st !! d) as [[[r|] cbs]|] eqn:Hd; [|done..].
  destruct (run_chain_quiet cbs r st) as [Hq Hds].
  { intros p f Hin Hc. by eapply (inv_deferred st Hinv d). }
  destruct (run_chain cbs r st) as [r' st'] eqn:Hrun. cbn [fst snd] in *.
  split_and!; [|by eapply quiet_trans; [done|apply quiet_set_deferreds]|done].
  apply inv_insert_deferred; [by eapply quiet_inv|]. intros p f Hin. by apply elem_of_nil in Hin.
Qed.

Lemma addCallbacks_inv d cb eb st :
  feed_inv st →
  (∀ f, closes f (cb, eb) → dead f st) →
  feed_inv (addCallbacks d cb eb st).2 ∧ quiet st (addCallbacks d cb eb st).2
  ∧ (addCallbacks d cb eb st).1 = Ret tt.
Proof.
  intros Hinv Hnew. unfold addCallbacks, bind, modify.
  set (st1 := set_deferreds _ st).
  assert (feed_inv st1) as Hinv1.
  { destruct Hinv as [Hslot Hdist Hdef]. split; [done|done|].
    intros d' dd p f Hlook Hin Hc. subst st1. cbn in Hlook. apply dead_set_deferreds.
    destruct (decide (d = d')) as [<-|Hne].
    - rewrite list_lookup_alter_eq in Hlook.
      destruct (deferreds st !! d) as [dd0|] eqn:Hd0; [|done].
      injection Hlook as <-. cbn in Hin. apply elem_of_app in Hin as [Hin|Hin].
      + by eapply Hdef.
      + apply list_elem_of_singleton in Hin as ->. by apply Hnew.
    - rewrite list_lookup_alter_ne in Hlook by done. by eapply Hdef. }
  destruct (runCallbacks_inv d st1 Hinv1) as (Hinv2 & Hq & Hret).
  destruct (runCallbacks d st1) as [res st2]. cbn [fst snd] in *.
  split_and!; [done| |done]. eapply quiet_trans; [|done]. apply quiet_set_deferreds.
Qed.

Lemma maybeDeferred_inv storage f spider st :
  feed_inv st →
  feed_inv (maybeDeferred storage f spider st).2
  ∧ quiet st (maybeDeferred storage f spider st).2
  ∧ ∃ d, (maybeDeferred storage f spider st).1 = Ret d.
Proof.
  intros [Hslot Hdist Hdef]. unfold maybeDeferred, bind, gets, modify, ret. cbn.
  split_and!; [|done|by eexists]. split; [done|done|].
  intros d dd p g Hlook Hin Hc. cbn in Hlook.
  apply lookup_app_Some in Hlook as [Hlook|[_ Hlook]].
  - by eapply (Hdef d).
  - apply list_lookup_singleton_Some in Hlook as [_ <-]. by apply elem_of_nil in Hin.
Qed.

Lemma fire_inv d r st :
  feed_inv st → feed_inv (fire d r st).2 ∧ quiet st (fire d r st).2.
Proof.
  intros Hinv. unfold fire, bind, gets, modify. cbn.
  destruct (deferreds st !! d) as [[[r0|] cbs]|] eqn:Hd; [done| |done].
  set (st1 := set_deferreds _ st).
  assert (feed_inv st1) as Hinv1.
  { apply inv_insert_deferred; [done|]. intros p f Hin Hc. by eapply (inv_deferred st Hinv d). }
  destruct (runCallbacks_inv d st1 Hinv1) as (Hinv2 & Hq & Hret).
  destruct (runCallbacks d st1) as [res st2]. cbn [fst snd] in *.
  split; [done|]. eapply quiet_trans; [|done]. apply quiet_set_deferreds.
Qed.

(** *** The handlers keep the invariant *)

Lemma items_bytes_snoc cls seen items i :
  items_bytes cls seen (items ++ [i])
  = items_bytes cls seen items ++ item_bytes cls (seen ++ items) i.
Proof.
  revert seen. induction items as [|x items IH]; intros seen; cbn.
  - by rewrite !app_nil_r.
  - by rewrite IH, <-!app_assoc.
Qed.

(** Writing at the end of a stream appends. *)
Lemma file_write_end bs data :
  file_write bs {| f_data := data; f_pos := length data; f_closed := false |}
  = {| f_data := data ++ bs; f_pos := length (data ++ bs); f_closed := false |}.
Proof.
  unfold file_write. cbn. f_equal.
  - rewrite firstn_all, drop_ge by lia. by rewrite app_nil_r.
  - by rewrite length_app.
Qed.

Lemma open_spider_eq self spider st :
  open_spider self spider st =
    match exporters self !! format self with
    | Some cls =>
        (Ret tt,
         {| slots := <[spider_id spider :=
                        {| file := length (files st);
                           exporter := {| exp_class := cls; exp_file := length (files st);
                                          exp_seen := [] |};
                           itemcount := 0 |}]> (slots st);
            files := files st ++ [file_write (start_bytes cls) new_file];
            deferreds := deferreds st;
            trace := trace st |})
    | None => (Raise (KeyError (format self)), set_files (λ fs, fs ++ [new_file]) st)
    end.
Proof.
  unfold open_spider, bind, TemporaryFile, gets, modify, ret, _get_exporter. cbn.
  destruct (exporters self !! format self) as [cls|]; [|done].
  unfold set_slots. cbn. do 2 f_equal.
  rewrite alter_app_r_alt by done. by rewrite Nat.sub_diag.
Qed.

Lemma item_passed_eq item spider st :
  item_passed item spider st =
    match slots st !! spider_id spider with
    | Some slot =>
        (Ret item,
         {| slots := <[spider_id spider :=
                        {| file := file slot;
                           exporter := {| exp_class := exp_class (exporter slot);
                                          exp_file := exp_file (exporter slot);
                                          exp_seen := exp_seen (exporter slot) ++ [item] |};
                           itemcount := itemcount slot + 1 |}]> (slots st);
            files := alter (file_write (item_bytes (exp_class (exporter slot))
                                          (exp_seen (exporter slot)) item))
                       (exp_file (exporter slot)) (files st);
            deferreds := deferreds st;
            trace := trace st |})
    | None => (Raise (KeyError "spider"), st)
    end.
Proof.
  unfold item_passed, bind, gets. cbn. by destruct (slots st !! spider_id spider).
Qed.

Lemma dead_app f st x :
  dead f st → dead f (set_files (λ fs, fs ++ [x]) st).
Proof. intros [Hlt Hlive]. split; [cbn; rewrite length_app; lia|done]. Qed.

Lemma inv_new_file st x : feed_inv st → feed_inv (set_files (λ fs, fs ++ [x]) st).
Proof.
  intros [Hslot Hdist Hdef]. split; [|done|].
  - intros sid slot Hin. destruct (Hslot sid slot Hin) as (? & ? & Hf).
    split_and!; [done|done|]. cbn. rewrite lookup_app_l; [done|by eapply lookup_lt_Some].
  - intros d dd p f ? ? ?. apply dead_app. by eapply Hdef.
Qed.

Lemma open_spider_inv self spider st :
  feed_inv st → feed_inv (open_spider self spider st).2.
Proof.
  intros Hinv. rewrite open_spider_eq.
  destruct (exporters self !! format self) as [cls|]; [|by apply inv_new_file].
  pose proof Hinv as [Hslot Hdist Hdef]. cbn [snd].
  assert (∀ sid slot, slots st !! sid = Some slot → file slot < length (files st)) as Hlt.
  { intros sid slot Hin. destruct (Hslot sid slot Hin) as (_ & _ & Hf).
    by eapply lookup_lt_Some. }
  split; cbn [slots files deferreds].
  - intros sid slot Hin. destruct (decide (spider_id spider = sid)) as [<-|Hne].
    + rewrite lookup_insert_eq in Hin. injection Hin as <-. cbn.
      split_and!; [done|done|]. rewrite list_lookup_middle by done.
      unfold new_file. rewrite (file_write_end _ []). unfold stream_of, feed_so_far. cbn.
      by rewrite app_nil_r.
    + rewrite lookup_insert_ne in Hin by done. destruct (Hslot sid slot Hin) as (? & ? & Hf).
      split_and!; [done|done|]. rewrite lookup_app_l; [done|by eapply Hlt].
  - intros s1 s2 slot1 slot2 H1 H2 Hfile.
    destruct (decide (spider_id spider = s1)) as [<-|Hne1];
      destruct (decide (spider_id spider = s2)) as [<-|Hne2]; [done|..].
    + rewrite lookup_insert_eq in H1. rewrite lookup_insert_ne in H2 by done.
      injection H1 as <-. cbn in Hfile. apply Hlt in H2. lia.
    + rewrite lookup_insert_eq in H2. rewrite lookup_insert_ne in H1 by done.
      injection H2 as <-. cbn in Hfile. apply Hlt in H1. lia.
    + rewrite lookup_insert_ne in H1, H2 by done. by eapply Hdist.
  - intros d dd p f Hlook Hin Hc. destruct (Hdef d dd p f Hlook Hin Hc) as [Hf Hlive].
    split; cbn [slots files]; [rewrite length_app; lia|].
    intros sid slot Hs. destruct (decide (spider_id spider = sid)) as [<-|Hne].
    + rewrite lookup_insert_eq in Hs. injection Hs as <-. cbn. lia.
    + rewrite lookup_insert_ne in Hs by done. by eapply Hlive.
Qed.

Lemma item_passed_inv item spider st :
  feed_inv st → feed_inv (item_passed item spider st).2.
Proof.
  intros Hinv. rewrite item_passed_eq.
  destruct (slots st !! spider_id spider) as [slot|] eqn:Hslot0; [|done].
  pose proof Hinv as [Hslot Hdist Hdef]. cbn [snd].
  destruct (Hslot _ _ Hslot0) as (Hexp & Hcount & Hfile).
  split; cbn [slots files deferreds].
  - intros sid slot' Hin. destruct (decide (spider_id spider = sid)) as [<-|Hne].
    + rewrite lookup_insert_eq in Hin. injection Hin as <-. cbn.
      split_and!; [done|rewrite length_app; cbn; lia|].
      rewrite Hexp, list_lookup_alter_eq, Hfile. cbn. f_equal.
      unfold stream_of. rewrite file_write_end. unfold feed_so_far. cbn.
      by rewrite items_bytes_snoc, app_assoc.
    + rewrite lookup_insert_ne in Hin by done.
      destruct (Hslot sid slot' Hin) as (? & ? & Hf). split_and!; [done|done|].
      rewrite list_lookup_alter_ne; [done|]. rewrite Hexp. intros Heq.
      apply Hne. by eapply Hdist.
  - intros s1 s2 slot1 slot2 H1 H2 Hf.
    destruct (decide (spider_id spider = s1)) as [<-|Hne1];
      destruct (decide (spider_id spider = s2)) as [<-|Hne2]; [done|..].
    + rewrite lookup_insert_eq in H1. rewrite lookup_insert_ne in H2 by done.
      injection H1 as <-. cbn in Hf. by eapply Hdist.
    + rewrite lookup_insert_eq in H2. rewrite lookup_insert_ne in H1 by done.
      injection H2 as <-. cbn in Hf. by eapply Hdist.
    + rewrite lookup_insert_ne in H1, H2 by done. by eapply Hdist.
  - intros d dd p f Hlook Hin Hc. destruct (Hdef d dd p f Hlook Hin Hc) as [Hf Hlive].
    split; cbn [slots files]; [by rewrite length_alter|].
    intros sid slot' Hs. destruct (decide (spider_id spider = sid)) as [<-|Hne].
    + rewrite lookup_insert_eq in Hs. injection Hs as <-. cbn. by eapply Hlive.
    + rewrite lookup_insert_ne in Hs by done. by eapply Hlive.
Qed.

Lemma calm_quiet f0 sl st st' :
  calm f0 sl st → quiet st st' → feed_inv st' → calm f0 sl st'.
Proof.
  intros (Hinv & Hdead & Hsl) Hq Hinv'. split_and!; [done|by eapply quiet_dead|].
  destruct Hq as (-> & _). done.
Qed.

Section Calm.
Variables (f0 : nat) (sl : gmap nat SpiderSlot).

Local Abbreviation keeps m := (hoare (calm f0 sl) m (λ _, calm f0 sl) (calm f0 sl)).

Lemma calm_alter g : keeps (modify (set_files (alter g f0))).
Proof.
  apply hoare_modify. intros st Hcalm. pose proof Hcalm as (Hinv & Hdead & Hsl).
  pose proof (quiet_alter g f0 st Hdead) as Hq.
  eapply calm_quiet; [done|done|]. by eapply quiet_inv.
Qed.

Lemma calm_gets {A} (f : State → A) : keeps (gets f).
Proof. by apply hoare_gets. Qed.

Lemma calm_lift {A} (r : Result A) : keeps (lift r).
Proof. by apply hoare_lift. Qed.

Lemma calm_ret {A} (a : A) : keeps (ret a).
Proof. by apply hoare_ret. Qed.

Lemma calm_raise {A} e : keeps (raise (A:=A) e).
Proof. by apply hoare_raise. Qed.

Lemma calm_bind {A B} (m : M A) (k : A → M B) :
  keeps m → (∀ a, keeps (k a)) → keeps (bind m k).
Proof. intros Hm Hk. eapply hoare_bind; [apply Hm|apply Hk]. Qed.

Lemma calm_maybeDeferred storage f spider : keeps (maybeDeferred storage f spider).
Proof.
  intros st Hcalm. pose proof Hcalm as (Hinv & Hdead & Hsl).
  destruct (maybeDeferred_inv storage f spider st Hinv) as (Hinv' & Hq & d & Hret).
  destruct (maybeDeferred storage f spider st) as [res st']. cbn [fst snd] in *. subst res.
  by eapply calm_quiet.
Qed.

Lemma calm_addCallbacks d cb eb :
  (∀ f, closes f (cb, eb) → f = f0) → keeps (addCallbacks d cb eb).
Proof.
  intros Hcl st Hcalm. pose proof Hcalm as (Hinv & Hdead & Hsl).
  destruct (addCallbacks_inv d cb eb st Hinv) as (Hinv' & Hq & Hret).
  { intros f Hf. by rewrite (Hcl f Hf). }
  destruct (addCallbacks d cb eb st) as [res st']. cbn [fst snd] in *. subst res.
  by eapply calm_quiet.
Qed.

End Calm.

Lemma close_spider_inv self spider now st :
  feed_inv st →
  feed_inv (close_spider self spider now st).2
  ∧ (slots (close_spider self spider now st).2 = slots st
     ∨ slots (close_spider self spider now st).2 = delete (spider_id spider) (slots st)).
Proof.
  intros Hinv. destruct (close_spider self spider now st) as [out st'] eqn:Hclose.
  cbn [snd]. unfold close_spider in Hclose. unfold bind at 1 in Hclose.
  unfold gets at 1 in Hclose.
  destruct (slots st !! spider_id spider) as [slot|] eqn:Hslot;
    [|injection Hclose as <- <-; by split; [|left]].
  unfold bind at 1 in Hclose. unfold modify at 1 in Hclose.
  set (st1 := set_slots (delete (spider_id spider)) st) in Hclose.
  destruct (inv_slot st Hinv _ _ Hslot) as (Hexp & Hcount & Hfile).
  assert (calm (file slot) (delete (spider_id spider) (slots st)) st1) as Hcalm.
  { pose proof Hinv as [Hsl Hdist Hdef]. split_and!; [split|split|done]; cbn.
    - intros sid slot' Hin. apply lookup_delete_Some in Hin as [_ Hin]. by apply (Hsl sid).
    - intros s1 s2 slot1 slot2 H1 H2.
      apply lookup_delete_Some in H1 as [_ H1]. apply lookup_delete_Some in H2 as [_ H2].
      by eapply Hdist.
    - intros d dd p f Hl Hin Hc. destruct (Hdef d dd p f Hl Hin Hc) as [Hlt Hlive].
      split; [done|]. cbn. intros sid slot' Hs.
      apply lookup_delete_Some in Hs as [_ Hs]. by eapply Hlive.
    - by eapply lookup_lt_Some.
    - intros sid slot' Hs. apply lookup_delete_Some in Hs as [Hne Hs].
      intros Heq. apply Hne. by eapply Hdist. }
  match type of Hclose with ?m st1 = _ =>
    assert (hoare (calm (file slot) (delete (spider_id spider) (slots st))) m
              (λ _, calm (file slot) (delete (spider_id spider) (slots st)))
              (calm (file slot) (delete (spider_id spider) (slots st)))) as Hrest
  end.
  { destruct (_ && _); [apply calm_ret|].
    apply calm_bind; [unfold finish_exporting, write; rewrite Hexp; apply calm_alter|intros _].
    apply calm_bind; [apply calm_gets|intros nbytes].
    apply calm_bind; [apply calm_alter|intros _].
    apply calm_bind; [apply calm_lift|intros uri].
    apply calm_bind.
    { unfold _get_storage. destruct (storages self !! _); [apply calm_lift|apply calm_raise]. }
    intros [storage|]; [|apply calm_ret].
    apply calm_bind; [apply calm_lift|intros logfmt].
    apply calm_bind; [apply calm_maybeDeferred|intros d].
    apply calm_bind.
    { apply calm_addCallbacks. intros f [Hc|Hc]; cbn in Hc; congruence. }
    intros _. apply calm_bind; [apply calm_lift|intros msg].
    apply calm_bind.
    { apply calm_addCallbacks. intros f [Hc|Hc]; cbn in Hc; congruence. }
    intros _. apply calm_bind; [|intros _; apply calm_ret].
    apply calm_addCallbacks. intros f [Hc|Hc]; cbn in Hc; congruence. }
  specialize (Hrest st1 Hcalm). rewrite Hclose in Hrest.
  destruct out; destruct Hrest as (? & ? & ?); (split; [done|by right]).
Qed.

Lemma deliver_inv self sig st : feed_inv st → feed_inv (deliver self sig st).
Proof.
  intros Hinv. destruct sig as [s|s now|i s|d r]; cbn [deliver].
  - by apply open_spider_inv.
  - by apply close_spider_inv.
  - by apply item_passed_inv.
  - by apply fire_inv.
Qed.

Lemma deliver_all_inv self sigs st : feed_inv st → feed_inv (deliver_all self sigs st).
Proof.
  revert st. induction sigs as [|sig sigs IH]; intros st Hinv; [done|].
  apply IH. by apply deliver_inv.
Qed.

(** A signal that is not about a spider leaves its slot alone, except that
    an item passed for it is exported and counted. *)
Lemma deliver_slot self sig sid st :
  feed_inv st → inside sid sig →
  slots (deliver self sig st) !! sid =
    match sig with
    | item_passed_signal i s =>
        if decide (spider_id s = sid) then
          (λ slot, {| file := file slot;
                      exporter := {| exp_class := exp_class (exporter slot);
                                     exp_file := exp_file (exporter slot);
                                     exp_seen := exp_seen (exporter slot) ++ [i] |};
                      itemcount := itemcount slot + 1 |}) <$> slots st !! sid
        else slots st !! sid
    | _ => slots st !! sid
    end.
Proof.
  intros Hinv Hin. destruct sig as [s|s now|i s|d r]; cbn [deliver inside] in *.
  - rewrite open_spider_eq. destruct (exporters self !! format self); [|done].
    cbn. by rewrite lookup_insert_ne.
  - destruct (close_spider_inv self s now st Hinv) as [_ [->| ->]]; [done|].
    by rewrite lookup_delete_ne.
  - rewrite item_passed_eq. destruct (decide (spider_id s = sid)) as [<-|Hne].
    + destruct (slots st !! spider_id s) as [slot|] eqn:Hs; cbn; [|by rewrite Hs].
      by rewrite lookup_insert_eq.
    + destruct (slots st !! spider_id s); cbn; [|done]. by rewrite lookup_insert_ne.
  - destruct (fire_inv d r st Hinv) as [_ (-> & _)]. done.
Qed.

Lemma deliver_all_cons self sig sigs st :
  deliver_all self (sig :: sigs) st = deliver_all self sigs (deliver self sig st).
Proof. done. Qed.

Lemma items_of_cons sid sig sigs :
  items_of sid (sig :: sigs) =
    match sig with
    | item_passed_signal i s =>
        if decide (spider_id s = sid) then i :: items_of sid sigs else items_of sid sigs
    | _ => items_of sid sigs
    end.
Proof. destruct sig; try done. unfold items_of. cbn. by destruct (decide _). Qed.

(** Between its opening and its closing a slot collects the items passed
    for its spider, in order, and nothing else happens to it. *)
Lemma deliver_all_slot self sigs sid slot st :
  feed_inv st → Forall (inside sid) sigs → slots st !! sid = Some slot →
  slots (deliver_all self sigs st) !! sid =
    Some {| file := file slot;
            exporter := {| exp_class := exp_class (exporter slot);
                           exp_file := exp_file (exporter slot);
                           exp_seen := exp_seen (exporter slot) ++ items_of sid sigs |};
            itemcount := itemcount slot + Z.of_nat (length (items_of sid sigs)) |}.
Proof.
  revert st slot. induction sigs as [|sig sigs IH]; intros st slot Hinv Hin Hslot.
  - cbn. rewrite app_nil_r, Z.add_0_r. by destruct slot as [? [] ?].
  - apply Forall_cons in Hin as [Hsig Hin]. rewrite deliver_all_cons.
    pose proof (deliver_slot self sig sid st Hinv Hsig) as Hstep.
    pose proof (deliver_inv self sig st Hinv) as Hinv'.
    rewrite items_of_cons.
    destruct sig as [s|s now|i s|d r]; try (rewrite Hslot in Hstep; by apply IH).
    destruct (decide (spider_id s = sid)) as [Heq|Hne].
    + rewrite Hslot in Hstep. cbn [fmap option_fmap option_map] in Hstep.
      rewrite (IH _ _ Hinv' Hin Hstep). cbn [file exporter itemcount exp_class exp_file exp_seen].
      rewrite <-app_assoc. cbn [app length]. do 2 f_equal. lia.
    + rewrite Hslot in Hstep. by apply IH.
Qed.

(** *** What closing a spider with a live slot does *)

Lemma logfmt_eq self n m uri :
  pyformat "%%s %s feed (%d items, %d bytes) in: %s"
    (Positional [PStr (format self); PInt n; PInt m; PStr uri])
  = Ret (feed_line "%s" self n m uri).
Proof. unfold pyformat. simpl. by rewrite append_nil_r. Qed.

Lemma feed_line_format verb self n m uri :
  percent_free (format self) = true → percent_free uri = true →
  pyformat (feed_line "%s" self n m uri) (Positional [PStr verb])
  = Ret (feed_line verb self n m uri).
Proof.
  intros Hfmt Huri. unfold pyformat, feed_line.
  change ("%s" +:+ ?rest) with (String "%" (String "s" rest)).
  simpl. change ("" +:+ ?x) with x. rewrite fmt_go_literal; [done|].
  rewrite !percent_free_append, Hfmt, Huri, !percent_free_int_str. done.
Qed.

#[local] Opaque pyformat.

Lemma close_spider_empty self spider now st slot :
  slots st !! spider_id spider = Some slot →
  itemcount slot = 0%Z → store_empty self = false →
  close_spider self spider now st = (Ret None, set_slots (delete (spider_id spider)) st).
Proof.
  intros Hs Hn He. unfold close_spider. unfold bind at 1. unfold gets at 1. rewrite Hs.
  unfold bind at 1. unfold modify at 1. by rewrite Hn, He.
Qed.

(** Adding a pair to the newest Deferred while it is pending. *)
Lemma addCallbacks_pending cb eb sl fl dl tr cbs :
  addCallbacks (length dl) cb eb
    {| slots := sl; files := fl;
       deferreds := dl ++ [{| d_result := None; d_callbacks := cbs |}]; trace := tr |}
  = (Ret tt,
     {| slots := sl; files := fl;
        deferreds := dl ++ [{| d_result := None; d_callbacks := cbs ++ [(cb, eb)] |}];
        trace := tr |}).
Proof.
  unfold addCallbacks, bind, modify, runCallbacks, set_deferreds.
  cbn [slots files deferreds trace].
  rewrite alter_app_r_alt by done. rewrite Nat.sub_diag. cbn [alter list_alter].
  by rewrite list_lookup_middle.
Qed.

(** Adding a pair to the newest Deferred once it has fired: the pair runs. *)
Lemma addCallbacks_fired cb eb sl fl dl tr r :
  addCallbacks (length dl) cb eb
    {| slots := sl; files := fl;
       deferreds := dl ++ [{| d_result := Some r; d_callbacks := [] |}]; trace := tr |}
  = let out := run_chain [(cb, eb)] r
                 {| slots := sl; files := fl;
                    deferreds := dl ++ [{| d_result := Some r; d_callbacks := [(cb, eb)] |}];
                    trace := tr |} in
    (Ret tt,
     set_deferreds <[length dl := {| d_result := Some out.1; d_callbacks := [] |}]> out.2).
Proof.
  unfold addCallbacks, bind, modify, runCallbacks.
  cbn [set_deferreds slots files deferreds trace].
  rewrite alter_app_r_alt by done. rewrite Nat.sub_diag. cbn [alter list_alter app].
  rewrite list_lookup_middle by done.
  cbn [d_result d_callbacks app]. unfold set_deferreds at 1.
  cbn [slots files deferreds trace].
  rewrite alter_app_r_alt by done. rewrite Nat.sub_diag.
  cbn [alter list_alter d_result d_callbacks app]. by destruct (run_chain _ _ _).
Qed.

Lemma insert_last {A} (l : list A) (x y : A) : <[length l := y]> (l ++ [x]) = l ++ [y].
Proof. rewrite insert_app_r_alt by done. by rewrite Nat.sub_diag. Qed.

Ltac state_norm :=
  unfold set_deferreds, set_files, set_slots, emit;
  cbn [slots files deferreds trace fst snd].

(** The three callbacks of [close_spider] on the Deferred that
    [maybeDeferred] has just made. *)
Lemma callbacks_attached self sid f n m uri sl fl dl tr res0 :
  percent_free (format self) = true → percent_free uri = true →
  ∃ stF,
    (run addCallback (length dl) (LogStored (feed_line "%s" self n m uri) sid);
     do msg <- lift (pyformat (feed_line "%s" self n m uri) (Positional [PStr "Error storing"]));
     run addErrback (length dl) (LogErr msg sid);
     run addBoth (length dl) (CloseFile f);
     ret (Some (length dl)))
      {| slots := sl; files := fl;
         deferreds := dl ++ [{| d_result := res0; d_callbacks := [] |}]; trace := tr |}
    = (Ret (Some (length dl)), stF)
    ∧ ∀ r, trace (settle (length dl) r stF)
           = tr ++ [completion self sid n m uri (from_option id r res0); EvClose f]
         ∧ files (settle (length dl) r stF) = alter file_close f fl.
Proof.
  intros Hpf Hpu.
  pose proof (feed_line_format "Stored" self n m uri Hpf Hpu) as Hstored.
  pose proof (feed_line_format "Error storing" self n m uri Hpf Hpu) as Herr.
  unfold addCallback, addErrback, addBoth.
  destruct res0 as [r0|].
  - unfold bind at 1. rewrite addCallbacks_fired. cbn zeta.
    destruct r0 as [|e]; cbn [run_chain run_thunk]; rewrite ?Hstored; state_norm;
      rewrite insert_last; unfold bind at 1, lift at 1; rewrite Herr;
      unfold bind at 1; rewrite addCallbacks_fired; cbn zeta;
      cbn [run_chain run_thunk]; state_norm;
      rewrite insert_last; unfold bind at 1; rewrite addCallbacks_fired; cbn zeta;
      cbn [run_chain run_thunk]; state_norm;
      rewrite insert_last; (eexists; split; [done|]); intros r;
      unfold settle; cbn [deferreds]; rewrite list_lookup_middle by done;
      cbn; by rewrite <-app_assoc.
  - unfold bind at 1. rewrite addCallbacks_pending.
    unfold bind at 1, lift at 1. rewrite Herr.
    unfold bind at 1. rewrite addCallbacks_pending.
    unfold bind at 1. rewrite addCallbacks_pending.
    eexists. split; [done|]. intros r.
    unfold settle. cbn [deferreds]. rewrite list_lookup_middle by done.
    unfold fire, bind, gets, modify. cbn [deferreds]. rewrite list_lookup_middle by done.
    state_norm. rewrite insert_last.
    unfold runCallbacks. cbn [deferreds]. rewrite list_lookup_middle by done.
    destruct r as [|e]; cbn [app run_chain run_thunk]; rewrite ?Hstored; state_norm;
      cbn; by rewrite <-app_assoc.
Qed.

Lemma close_spider_stores self spider now st slot uri ctor storage :
  feed_inv st →
  slots st !! spider_id spider = Some slot →
  itemcount slot ≠ 0%Z →
  pyformat (urifmt self) (Mapping (_get_uri_params self spider now)) = Ret uri →
  storages self !! urlparse_scheme uri = Some ctor →
  ctor uri = Ret (Some storage) →
  percent_free (format self) = true → percent_free uri = true →
  let feed := feed_so_far (exporter slot)
              ++ finish_bytes (exp_class (exporter slot)) (exp_seen (exporter slot)) in
  ∃ stF,
    close_spider self spider now st = (Ret (Some (length (deferreds st))), stF)
    ∧ ∀ r,
        trace (settle (length (deferreds st)) r stF) =
          trace st ++
            [EvStore storage (file slot)
               (Some {| f_data := feed; f_pos := 0; f_closed := false |}) (spider_id spider);
             completion self (spider_id spider) (itemcount slot) (Z.of_nat (length feed)) uri
               (store_outcome storage r);
             EvClose (file slot)]
        ∧ files (settle (length (deferreds st)) r stF) !! file slot
          = Some {| f_data := feed; f_pos := 0; f_closed := true |}.
Proof.
  intros Hinv Hs Hn Huri Hctor Hsto Hpf Hpu feed.
  destruct (inv_slot st Hinv _ _ Hs) as (Hexp & Hcount & Hfile).
  destruct st as [sl fl dl tr]. cbn [slots files deferreds trace] in *.
  assert (alter (file_seek 0) (file slot)
            (alter (file_write (finish_bytes (exp_class (exporter slot))
                                  (exp_seen (exporter slot)))) (file slot) fl) !! file slot
          = Some {| f_data := feed; f_pos := 0; f_closed := false |}) as Hstream.
  { rewrite !list_lookup_alter_eq, Hfile. unfold stream_of. cbn [fmap option_fmap option_map].
    by rewrite file_write_end. }
  assert (from_option f_pos 0
            (alter (file_write (finish_bytes (exp_class (exporter slot))
                                  (exp_seen (exporter slot)))) (file slot) fl !! file slot)
          = length feed) as Htell.
  { rewrite list_lookup_alter_eq, Hfile. unfold stream_of. cbn [fmap option_fmap option_map].
    by rewrite file_write_end. }
  unfold close_spider. unfold bind at 1. unfold gets at 1. cbn [slots]. rewrite Hs.
  unfold bind at 1. unfold modify at 1. rewrite bool_decide_eq_false_2 by done.
  cbn [andb]. unfold finish_exporting, write, tell, seek. rewrite Hexp.
  unfold bind at 1, modify at 1. lazy beta iota.
  unfold bind at 1, gets at 1. lazy beta iota.
  unfold bind at 1, modify at 1. lazy beta iota.
  rewrite Huri. unfold bind at 1, lift at 1. lazy beta iota.
  unfold _get_storage. rewrite Hctor, Hsto. unfold bind at 1, lift at 1. lazy beta iota.
  state_norm. rewrite Htell, logfmt_eq. unfold bind at 1, lift at 1. lazy beta iota.
  unfold bind at 1. unfold maybeDeferred at 1. unfold bind at 1 2 3 4, gets at 1 2, modify at 1 2, ret at 1.
  lazy beta iota. state_norm. rewrite Hstream.
  match goal with |- context [{| slots := ?a; files := ?b; deferreds := _ ++ [{| d_result := ?res0; d_callbacks := [] |}]; trace := ?c |}] =>
    destruct (callbacks_attached self (spider_id spider) (file slot) (itemcount slot)
                (Z.of_nat (length feed)) uri a b dl c res0 Hpf Hpu) as (stF & Heq & Hsettle)
  end.
  exists stF. split; [exact Heq|]. intros r. destruct (Hsettle r) as [Htr Hfl].
  rewrite Htr, Hfl. split.
  - rewrite <-app_assoc. cbn [app]. do 3 f_equal. unfold store_outcome.
    by destruct (store_mode storage).
  - by rewrite list_lookup_alter_eq, Hstream.
Qed.

#[local] Transparent pyformat.

(** A state with no slot and no Deferred satisfies the invariant: this is
    the state [__init__] leaves. *)
Lemma feed_inv_fresh fl tr :
  feed_inv {| slots := ∅; files := fl; deferreds := []; trace := tr |}.
Proof.
  split.
  - intros sid slot Hin. cbn in Hin. by rewrite lookup_empty in Hin.
  - intros s1 s2 slot1 slot2 Hin. cbn in Hin. by rewrite lookup_empty in Hin.
  - intros d dd p f Hl. cbn in Hl. by rewrite lookup_nil in Hl.
Qed.

(** So it holds in every state the extension can reach once constructed. *)
Lemma feed_inv_reachable self sigs fl tr :
  feed_inv (deliver_all self sigs {| slots := ∅; files := fl; deferreds := []; trace := tr |}).
Proof. apply deliver_all_inv, feed_inv_fresh. Qed.

(** When the store launched by [close_spider] has ended, well or badly, the
    last thing that happened is the closing of the slot's stream, and the
    stream is closed: for every close whose log line can be formatted. *)
Lemma close_spider_closes_stream self spider now st slot uri ctor storage r :
  feed_inv st →
  slots st !! spider_id spider = Some slot →
  itemcount slot ≠ 0%Z →
  pyformat (urifmt self) (Mapping (_get_uri_params self spider now)) = Ret uri →
  storages self !! urlparse_scheme uri = Some ctor →
  ctor uri = Ret (Some storage) →
  percent_free (format self) = true → percent_free uri = true →
  ∃ d, (close_spider self spider now st).1 = Ret (Some d)
       ∧ last (trace (settle d r (close_spider self spider now st).2))
         = Some (EvClose (file slot))
       ∧ f_closed <$> files (settle d r (close_spider self spider now st).2) !! file slot
         = Some true.
Proof.
  intros Hinv Hs Hn Huri Hctor Hsto Hpf Hpu.
  destruct (close_spider_stores self spider now st slot uri ctor storage
              Hinv Hs Hn Huri Hctor Hsto Hpf Hpu) as (stF & Heq & Hsettle).
  rewrite Heq. cbn [fst snd]. eexists. split; [done|].
  destruct (Hsettle r) as [-> ->]. split; [|done].
  by rewrite last_app.
Qed.

(** *** The claims *)

(** C2, as amended.  With store-empty-feeds false, closing a spider that
    was passed no item since it was opened stores nothing, whatever the URI
    template is.  Closing one that was passed N > 0 items, when the
    formatted URI resolves to a storage and neither the format name nor the
    URI has a percent sign in it, calls [store] exactly once, with the
    rewound stream holding exactly the feed of those N items, and what is
    logged when the store ends, "Stored" or "Error storing", reports N items
    and the length of that stream; the stream is closed after it. *)
Theorem C2_store_iff_items (self : FeedExporter) (st0 : State) (spider : Spider)
    (sigs : list Signal) (now : string) (cls : ExporterClass) :
  feed_inv st0 →
  store_empty self = false →
  exporters self !! format self = Some cls →
  Forall (inside (spider_id spider)) sigs →
  let st2 := deliver_all self sigs (deliver self (spider_opened spider) st0) in
  let passed := items_of (spider_id spider) sigs in
  let f := length (files st0) in
  let stream := {| f_data := feed_bytes cls passed; f_pos := 0; f_closed := false |} in
  (passed = [] →
   (close_spider self spider now st2).1 = Ret None
   ∧ trace (close_spider self spider now st2).2 = trace st2)
  ∧ (passed ≠ [] →
     ∀ (uri : string) (ctor : StorageCtor) (storage : Storage),
       pyformat (urifmt self) (Mapping (_get_uri_params self spider now)) = Ret uri →
       storages self !! urlparse_scheme uri = Some ctor →
       ctor uri = Ret (Some storage) →
       percent_free (format self) = true →
       percent_free uri = true →
       ∃ d, (close_spider self spider now st2).1 = Ret (Some d)
            ∧ ∀ r, trace (settle d r (close_spider self spider now st2).2) =
                     trace st2 ++
                       [EvStore storage f (Some stream) (spider_id spider);
                        completion self (spider_id spider) (Z.of_nat (length passed))
                          (Z.of_nat (length (feed_bytes cls passed))) uri
                          (store_outcome storage r);
                        EvClose f]).
Proof.
  intros Hinv Hempty Hcls Hsigs st2 passed f stream.
  set (st1 := deliver self (spider_opened spider) st0) in *.
  assert (feed_inv st1) as Hinv1 by by apply deliver_inv.
  assert (slots st1 !! spider_id spider =
            Some {| file := f;
                    exporter := {| exp_class := cls; exp_file := f; exp_seen := [] |};
                    itemcount := 0 |}) as Hslot1.
  { subst st1. cbn [deliver]. rewrite open_spider_eq, Hcls. cbn. by rewrite lookup_insert_eq. }
  assert (feed_inv st2) as Hinv2 by by apply deliver_all_inv.
  pose proof (deliver_all_slot self sigs _ _ st1 Hinv1 Hsigs Hslot1) as Hslot2.
  cbn [file exporter itemcount exp_class exp_file exp_seen app] in Hslot2.
  fold st2 passed in Hslot2. split.
  - intros Hnone. rewrite Hnone in Hslot2.
    by rewrite (close_spider_empty self spider now st2 _ Hslot2).
  - intros Hsome uri ctor storage Huri Hctor Hsto Hpf Hpu.
    destruct (close_spider_stores self spider now st2 _ uri ctor storage
                Hinv2 Hslot2) as (stF & Heq & Hsettle); try done.
    { cbn. destruct passed; [done|]. cbn. lia. }
    rewrite Heq. cbn [fst snd]. eexists. split; [done|]. intros r.
    destruct (Hsettle r) as [-> _].
    cbn [file exporter itemcount exp_class exp_file exp_seen feed_so_far].
    unfold stream, feed_bytes, feed_so_far. cbn [exp_class exp_seen].
    by rewrite <-app_assoc.
Qed.

(** The witness of C2.  No item: a crawl of the shop whose feed URI
    would not even resolve to a storage, closed with nothing passed.  Items:
    a crawl of the shop with another spider in between, its feed going to a
    file named after the spider and the time. *)
Lemma C2_store_iff_items_witness :
  ((close_spider (Scenario.extension "%(proto)s://example.com/feed.json") Scenario.shop
      Scenario.midnight
      (Scenario.crawled "%(proto)s://example.com/feed.json" [])).1 = Ret None
   ∧ trace (close_spider (Scenario.extension "%(proto)s://example.com/feed.json")
              Scenario.shop Scenario.midnight
              (Scenario.crawled "%(proto)s://example.com/feed.json" [])).2
     = trace (Scenario.crawled "%(proto)s://example.com/feed.json" []))
  ∧ ∃ d,
      (close_spider (Scenario.extension "file:///tmp/%(name)s-%(time)s.json") Scenario.shop
         Scenario.midnight
         (Scenario.crawled "file:///tmp/%(name)s-%(time)s.json"
            [item_passed_signal Scenario.book Scenario.shop;
             spider_opened {| spider_id := 8; attrs := ∅ |};
             item_passed_signal Scenario.pen {| spider_id := 8; attrs := ∅ |};
             item_passed_signal Scenario.pen Scenario.shop])).1 = Ret (Some d).
Proof.
  split.
  - destruct (C2_store_iff_items
                (Scenario.extension "%(proto)s://example.com/feed.json")
                Scenario.started Scenario.shop [] Scenario.midnight
                Scenario.LinesItemExporter) as [Hnone _].
    + apply feed_inv_fresh.
    + reflexivity.
    + vm_compute. reflexivity.
    + constructor.
    + apply Hnone. reflexivity.
  - destruct (C2_store_iff_items
                (Scenario.extension "file:///tmp/%(name)s-%(time)s.json")
                Scenario.started Scenario.shop
                [item_passed_signal Scenario.book Scenario.shop;
                 spider_opened {| spider_id := 8; attrs := ∅ |};
                 item_passed_signal Scenario.pen {| spider_id := 8; attrs := ∅ |};
                 item_passed_signal Scenario.pen Scenario.shop]
                Scenario.midnight Scenario.LinesItemExporter) as [_ Hstore].
    + apply feed_inv_fresh.
    + reflexivity.
    + vm_compute. reflexivity.
    + repeat constructor; vm_compute; lia.
    + destruct (Hstore ltac:(vm_compute; discriminate)
                  "file:///tmp/shop-2020-01-01T00-00-00.json" FileFeedStorage
                  {| target := "file:///tmp/shop-2020-01-01T00-00-00.json";
                     store_mode := StoreDefers |}) as (d & Hd & _).
      * vm_compute. reflexivity.
      * vm_compute. reflexivity.
      * reflexivity.
      * vm_compute. reflexivity.
      * vm_compute. reflexivity.
      * exists d. exact Hd.
Defined.

(** The claim C2 as the spec states it fails: the feed URI template passes
    the scheme check of [__init__] (its scheme is empty), a spider attribute
    fills in a scheme that is not registered, two items are passed, and the
    close stores nothing. *)
Lemma C2_items_passed_nothing_stored :
  FeedExporter_init (Scenario.settings "%(proto)s://example.com/feed.json")
    Scenario.loader init_state
  = (Ret (Scenario.extension "%(proto)s://example.com/feed.json"), Scenario.started)
  ∧ store_empty (Scenario.extension "%(proto)s://example.com/feed.json") = false
  ∧ items_of 7 [item_passed_signal Scenario.book Scenario.shop;
                item_passed_signal Scenario.pen Scenario.shop]
    = [Scenario.book; Scenario.pen]
  ∧ store_calls
      (trace (close_spider (Scenario.extension "%(proto)s://example.com/feed.json")
                Scenario.shop Scenario.midnight
                (Scenario.crawled "%(proto)s://example.com/feed.json"
                   [item_passed_signal Scenario.book Scenario.shop;
                    item_passed_signal Scenario.pen Scenario.shop])).2)
    = [].
Proof. split_and!; vm_compute; reflexivity. Qed.

(** C1, at the failing input.  The template's scheme is empty and
    registered, the formatted URI's scheme is "gopher" and is not: the
    close handler raises [KeyError] and logs nothing. *)
Lemma C1_unregistered_scheme_raises :
  FeedExporter_init (Scenario.settings "%(proto)s://example.com/feed.json")
    Scenario.loader init_state
  = (Ret (Scenario.extension "%(proto)s://example.com/feed.json"), Scenario.started)
  ∧ pyformat "%(proto)s://example.com/feed.json"
      (Mapping (_get_uri_params (Scenario.extension "%(proto)s://example.com/feed.json")
                  Scenario.shop Scenario.midnight))
    = Ret "gopher://example.com/feed.json"
  ∧ urlparse_scheme "gopher://example.com/feed.json" = "gopher"
  ∧ storages (Scenario.extension "%(proto)s://example.com/feed.json") !! "gopher" = None
  ∧ (close_spider (Scenario.extension "%(proto)s://example.com/feed.json")
       Scenario.shop Scenario.midnight
       (Scenario.crawled "%(proto)s://example.com/feed.json"
          [item_passed_signal Scenario.book Scenario.shop])).1
    = Raise (KeyError "gopher")
  ∧ trace (close_spider (Scenario.extension "%(proto)s://example.com/feed.json")
             Scenario.shop Scenario.midnight
             (Scenario.crawled "%(proto)s://example.com/feed.json"
                [item_passed_signal Scenario.book Scenario.shop])).2
    = trace (Scenario.crawled "%(proto)s://example.com/feed.json"
               [item_passed_signal Scenario.book Scenario.shop]).
Proof. split_and!; vm_compute; reflexivity. Qed.

(** C7, at the failing input.  The formatted URI has a percent sign in it
    (an encoded space).  The store is launched; then formatting the
    "Error storing" line raises inside [close_spider], before the errback
    and the closing callback are attached.  Whether the store then ends
    well or badly, nothing is logged and the stream stays open. *)
Lemma C7_percent_in_uri_leaves_stream_open :
  FeedExporter_init (Scenario.settings "file:///tmp/%(name)s%%20feed.json")
    Scenario.loader init_state
  = (Ret (Scenario.extension "file:///tmp/%(name)s%%20feed.json"), Scenario.started)
  ∧ (close_spider (Scenario.extension "file:///tmp/%(name)s%%20feed.json")
       Scenario.shop Scenario.midnight
       (Scenario.crawled "file:///tmp/%(name)s%%20feed.json"
          [item_passed_signal Scenario.book Scenario.shop])).1
    = Raise (TypeError "not enough arguments for format string")
  ∧ store_calls
      (trace (close_spider (Scenario.extension "file:///tmp/%(name)s%%20feed.json")
                Scenario.shop Scenario.midnight
                (Scenario.crawled "file:///tmp/%(name)s%%20feed.json"
                   [item_passed_signal Scenario.book Scenario.shop])).2)
    = [EvStore {| target := "file:///tmp/shop%20feed.json"; store_mode := StoreDefers |} 0
         (Some {| f_data := [Byte.x7b; Byte.x7d; Byte.x0a]; f_pos := 0; f_closed := false |})
         7]
  ∧ deferreds
      (close_spider (Scenario.extension "file:///tmp/%(name)s%%20feed.json")
         Scenario.shop Scenario.midnight
         (Scenario.crawled "file:///tmp/%(name)s%%20feed.json"
            [item_passed_signal Scenario.book Scenario.shop])).2 !! 0
    = Some {| d_result := None;
              d_callbacks :=
                [(Some (LogStored
                          "%s lines feed (1 items, 3 bytes) in: file:///tmp/shop%20feed.json"
                          7),
                  None)] |}
  ∧ ∀ r,
      f_closed <$>
        files (fire 0 r
                 (close_spider (Scenario.extension "file:///tmp/%(name)s%%20feed.json")
                    Scenario.shop Scenario.midnight
                    (Scenario.crawled "file:///tmp/%(name)s%%20feed.json"
                       [item_passed_signal Scenario.book Scenario.shop])).2).2 !! 0
      = Some false
      ∧ trace (fire 0 r
                 (close_spider (Scenario.extension "file:///tmp/%(name)s%%20feed.json")
                    Scenario.shop Scenario.midnight
                    (Scenario.crawled "file:///tmp/%(name)s%%20feed.json"
                       [item_passed_signal Scenario.book Scenario.shop])).2).2
        = trace (close_spider (Scenario.extension "file:///tmp/%(name)s%%20feed.json")
                   Scenario.shop Scenario.midnight
                   (Scenario.crawled "file:///tmp/%(name)s%%20feed.json"
                      [item_passed_signal Scenario.book Scenario.shop])).2.
Proof.
  split_and!; try (vm_compute; reflexivity).
  intros [|e]; split; vm_compute; reflexivity.
Qed.

(** *** The slots of the spiders: what every handler leaves of them *)

#[local] Opaque pyformat.

(** A computation that leaves [self.slots] alone. *)
Lemma run_thunk_slots t r st : slots (run_thunk t r st).2 = slots st.
Proof. destruct t; cbn; [by destruct (pyformat _ _)|done..]. Qed.

Lemma run_chain_slots cbs r st : slots (run_chain cbs r st).2 = slots st.
Proof.
  revert r st. induction cbs as [|[cb eb] cbs IH]; intros r st; [done|].
  cbn [run_chain]. destruct (match r with DSuccess => cb | DFailure _ => eb end) as [t|];
    [|apply IH].
  pose proof (run_thunk_slots t r st) as Ht. destruct (run_thunk t r st) as [r' st'].
  cbn [snd] in Ht. by rewrite IH.
Qed.

Lemma runCallbacks_slots d st : slots (runCallbacks d st).2 = slots st.
Proof.
  unfold runCallbacks. destruct (deferreds st !! d) as [[[r|] cbs]|]; [|done..].
  pose proof (run_chain_slots cbs r st) as Hc. destruct (run_chain cbs r st) as [r' st'].
  done.
Qed.

Section Slots.
Variable sl : gmap nat SpiderSlot.

Local Abbreviation unmoved m :=
  (hoare (λ st, slots st = sl) m (λ _ st, slots st = sl) (λ st, slots st = sl)).

Lemma unmoved_bind {A B} (m : M A) (k : A → M B) :
  unmoved m → (∀ a, unmoved (k a)) → unmoved (bind m k).
Proof. intros Hm Hk. eapply hoare_bind; [apply Hm|apply Hk]. Qed.

Lemma unmoved_addCallbacks d cb eb : unmoved (addCallbacks d cb eb).
Proof.
  intros st Hsl. unfold addCallbacks, bind, modify.
  pose proof (runCallbacks_slots d
    (set_deferreds (alter (λ dd, {| d_result := d_result dd;
                                   d_callbacks := d_callbacks dd ++ [(cb, eb)] |}) d) st)) as Hr.
  destruct (runCallbacks d _) as [[[]|e] st']; cbn [snd] in Hr; by rewrite Hr.
Qed.

Lemma unmoved_maybeDeferred storage f spider : unmoved (maybeDeferred storage f spider).
Proof. by intros st Hsl. Qed.

End Slots.

(** [close_spider] pops the slot first: whatever happens afterwards, and
    however it ends, the slots are the old ones without the spider's. *)
Lemma close_spider_pops self spider now st :
  slots (close_spider self spider now st).2 = delete (spider_id spider) (slots st).
Proof.
  destruct (close_spider self spider now st) as [out st'] eqn:Hclose.
  cbn [snd]. unfold close_spider in Hclose. unfold bind at 1 in Hclose.
  unfold gets at 1 in Hclose.
  destruct (slots st !! spider_id spider) as [slot|] eqn:Hslot.
  2:{ injection Hclose as <- <-. by rewrite delete_id. }
  unfold bind at 1 in Hclose. unfold modify at 1 in Hclose.
  set (st1 := set_slots (delete (spider_id spider)) st) in Hclose.
  set (sl := delete (spider_id spider) (slots st)).
  match type of Hclose with ?m st1 = _ =>
    assert (hoare (λ st, slots st = sl) m (λ _ st, slots st = sl) (λ st, slots st = sl))
      as Hrest
  end.
  { destruct (_ && _); [by apply hoare_ret|].
    apply unmoved_bind; [by apply hoare_modify|intros _].
    apply unmoved_bind; [by apply hoare_gets|intros nbytes].
    apply unmoved_bind; [by apply hoare_modify|intros _].
    apply unmoved_bind; [by apply hoare_lift|intros uri].
    apply unmoved_bind.
    { unfold _get_storage. destruct (storages self !! _);
        [by apply hoare_lift|by apply hoare_raise]. }
    intros [storage|]; [|by apply hoare_ret].
    apply unmoved_bind; [by apply hoare_lift|intros logfmt].
    apply unmoved_bind; [apply unmoved_maybeDeferred|intros d].
    apply unmoved_bind; [apply unmoved_addCallbacks|intros _].
    apply unmoved_bind; [by apply hoare_lift|intros msg].
    apply unmoved_bind; [apply unmoved_addCallbacks|intros _].
    apply unmoved_bind; [apply unmoved_addCallbacks|intros _].
    by apply hoare_ret. }
  specialize (Hrest st1 eq_refl). rewrite Hclose in Hrest. by destruct out.
Qed.

(** X7.  The life of a slot ends with the first close: whatever
    [close_spider] returns or raises, the spider's slot is gone and the
    other slots are untouched; closing a spider that has no slot, or
    passing an item for it, raises KeyError and changes nothing.  So a
    second close and a late item both fail, also after a close that
    stored nothing or raised. *)
Theorem slot_lifecycle (self : FeedExporter) (spider : Spider) (now now' : string)
    (item : Item) (st : State) :
  slots (close_spider self spider now st).2 = delete (spider_id spider) (slots st)
  ∧ close_spider self spider now' (close_spider self spider now st).2
    = (Raise (KeyError "spider"), (close_spider self spider now st).2)
  ∧ item_passed item spider (close_spider self spider now st).2
    = (Raise (KeyError "spider"), (close_spider self spider now st).2)
  ∧ (slots st !! spider_id spider = None →
     close_spider self spider now st = (Raise (KeyError "spider"), st)
     ∧ item_passed item spider st = (Raise (KeyError "spider"), st)).
Proof.
  assert (∀ st', slots st' !! spider_id spider = None →
            ∀ t, close_spider self spider t st' = (Raise (KeyError "spider"), st')
                 ∧ item_passed item spider st' = (Raise (KeyError "spider"), st')) as Hgone.
  { intros st' Hnone t. rewrite item_passed_eq, Hnone. split; [|done].
    unfold close_spider. unfold bind at 1, gets at 1. by rewrite Hnone. }
  pose proof (close_spider_pops self spider now st) as Hpop.
  assert (slots (close_spider self spider now st).2 !! spider_id spider = None) as Hnone.
  { rewrite Hpop. apply lookup_delete_eq. }
  split_and!; [done|by apply Hgone|by apply (Hgone _ Hnone now)|intros H; by apply Hgone].
Qed.

#[local] Transparent pyformat.

(** *** Other spiders *)

Lemma foreign_inside sid sig : foreign sid sig → inside sid sig.
Proof. by destruct sig. Qed.

Lemma foreign_items sid sigs : Forall (foreign sid) sigs → items_of sid sigs = [].
Proof.
  induction 1 as [|sig sigs Hsig _ IH]; [done|]. rewrite items_of_cons.
  destruct sig as [s|s now|i s|d r]; try done. cbn in Hsig. by destruct (decide _).
Qed.

(** X8.  What happens to other spiders does not touch a spider's feed:
    over any signals that open, feed and close other spiders or complete
    stores, its slot stays as it is, and its stream still holds exactly what
    its exporter has written, positioned at the end and open. *)
Theorem other_spiders_leave_feed_alone (self : FeedExporter) (sigs : list Signal)
    (sid : nat) (slot : SpiderSlot) (st : State) :
  feed_inv st →
  Forall (foreign sid) sigs →
  slots st !! sid = Some slot →
  slots (deliver_all self sigs st) !! sid = Some slot
  ∧ files (deliver_all self sigs st) !! file slot = Some (stream_of (exporter slot)).
Proof.
  intros Hinv Hsigs Hslot.
  assert (slots (deliver_all self sigs st) !! sid = Some slot) as Hslot'.
  { rewrite (deliver_all_slot self sigs sid slot st Hinv); [|by eapply Forall_impl,
      foreign_inside|done].
    rewrite (foreign_items sid sigs Hsigs), app_nil_r. cbn [length].
    rewrite Z.add_0_r. by destruct slot as [? [] ?]. }
  split; [done|].
  by apply (inv_slot _ (deliver_all_inv self sigs st Hinv) sid).
Qed.

(** *** The final state of a close that launches a store *)

Lemma list_alter_lookup {A} (g : A → A) (l : list A) (i : nat) (x : A) :
  l !! i = Some x → alter g i l = <[i := g x]> l.
Proof.
  revert i. induction l as [|y l IH]; intros [|i] Hl; try done.
  - cbn in Hl. by injection Hl as ->.
  - cbn in *. f_equal. by apply IH.
Qed.

#[local] Opaque pyformat.

(** The three callbacks of [close_spider] on the Deferred that
    [maybeDeferred] has just made, with the state they leave: on a pending
    Deferred they wait; on one that fired inside [maybeDeferred] each runs
    as it is added. *)
Lemma callbacks_attached_state self sid f n m uri sl fl dl tr res0 :
  percent_free (format self) = true → percent_free uri = true →
  (run addCallback (length dl) (LogStored (feed_line "%s" self n m uri) sid);
   do msg <- lift (pyformat (feed_line "%s" self n m uri) (Positional [PStr "Error storing"]));
   run addErrback (length dl) (LogErr msg sid);
   run addBoth (length dl) (CloseFile f);
   ret (Some (length dl)))
    {| slots := sl; files := fl;
       deferreds := dl ++ [{| d_result := res0; d_callbacks := [] |}]; trace := tr |}
  = (Ret (Some (length dl)),
     match res0 with
     | None =>
         {| slots := sl; files := fl;
            deferreds := dl ++ [{| d_result := None;
                                   d_callbacks := attached self sid f n m uri |}];
            trace := tr |}
     | Some r0 =>
         {| slots := sl; files := alter file_close f fl;
            deferreds := dl ++ [{| d_result := Some DSuccess; d_callbacks := [] |}];
            trace := tr ++ [completion self sid n m uri r0; EvClose f] |}
     end).
Proof.
  intros Hpf Hpu.
  pose proof (feed_line_format "Stored" self n m uri Hpf Hpu) as Hstored.
  pose proof (feed_line_format "Error storing" self n m uri Hpf Hpu) as Herr.
  unfold addCallback, addErrback, addBoth.
  destruct res0 as [r0|].
  - unfold bind at 1. rewrite addCallbacks_fired. cbn zeta.
    destruct r0 as [|e]; cbn [run_chain run_thunk]; rewrite ?Hstored; state_norm;
      rewrite insert_last; unfold bind at 1, lift at 1; rewrite Herr;
      unfold bind at 1; rewrite addCallbacks_fired; cbn zeta;
      cbn [run_chain run_thunk]; state_norm;
      rewrite insert_last; unfold bind at 1; rewrite addCallbacks_fired; cbn zeta;
      cbn [run_chain run_thunk]; state_norm;
      rewrite insert_last; unfold ret; cbn [completion]; by rewrite <-app_assoc.
  - unfold bind at 1. rewrite addCallbacks_pending.
    unfold bind at 1, lift at 1. rewrite Herr.
    unfold bind at 1. rewrite addCallbacks_pending.
    unfold bind at 1. rewrite addCallbacks_pending. done.
Qed.

Lemma close_spider_launches self spider now st slot uri ctor storage :
  feed_inv st →
  slots st !! spider_id spider = Some slot →
  bool_decide (itemcount slot = 0%Z) && negb (store_empty self) = false →
  pyformat (urifmt self) (Mapping (_get_uri_params self spider now)) = Ret uri →
  storages self !! urlparse_scheme uri = Some ctor →
  ctor uri = Ret (Some storage) →
  percent_free (format self) = true → percent_free uri = true →
  close_spider self spider now st
  = (Ret (Some (length (deferreds st))),
     {| slots := delete (spider_id spider) (slots st);
        files := <[file slot := finished_stream slot
                                  (match store_mode storage with
                                   | StoreDefers => false
                                   | _ => true
                                   end)]> (files st);
        deferreds := deferreds st ++
          [match store_mode storage with
           | StoreDefers =>
               {| d_result := None;
                  d_callbacks := attached self (spider_id spider) (file slot) (itemcount slot)
                                   (Z.of_nat (length (f_data (finished_stream slot false))))
                                   uri |}
           | _ => {| d_result := Some DSuccess; d_callbacks := [] |}
           end];
        trace := trace st ++
          EvStore storage (file slot) (Some (finished_stream slot false)) (spider_id spider)
          :: inline_end self spider slot uri storage |}).
Proof.
  intros Hinv Hs Hn Huri Hctor Hsto Hpf Hpu.
  destruct (inv_slot st Hinv _ _ Hs) as (Hexp & Hcount & Hfile).
  destruct st as [sl fl dl tr]. cbn [slots files deferreds trace] in *.
  set (feed := f_data (finished_stream slot false)).
  assert (alter (file_seek 0) (file slot)
            (alter (file_write (finish_bytes (exp_class (exporter slot))
                                  (exp_seen (exporter slot)))) (file slot) fl)
          = <[file slot := finished_stream slot false]> fl) as Hfl.
  { rewrite (list_alter_lookup _ fl _ _ Hfile).
    rewrite (list_alter_lookup _ _ _ (file_write (finish_bytes (exp_class (exporter slot))
                                        (exp_seen (exporter slot))) (stream_of (exporter slot)))).
    - rewrite list_insert_insert_eq. unfold stream_of. by rewrite file_write_end.
    - apply list_lookup_insert_eq. by eapply lookup_lt_Some. }
  assert (from_option f_pos 0
            (alter (file_write (finish_bytes (exp_class (exporter slot))
                                  (exp_seen (exporter slot)))) (file slot) fl !! file slot)
          = length feed) as Htell.
  { rewrite list_lookup_alter_eq, Hfile. unfold stream_of. cbn [fmap option_fmap option_map].
    by rewrite file_write_end. }
  assert (<[file slot := finished_stream slot false]> fl !! file slot
          = Some (finished_stream slot false)) as Hstream.
  { apply list_lookup_insert_eq. by eapply lookup_lt_Some. }
  unfold close_spider. unfold bind at 1. unfold gets at 1. cbn [slots]. rewrite Hs.
  unfold bind at 1. unfold modify at 1. rewrite Hn.
  unfold finish_exporting, write, tell, seek. rewrite Hexp.
  unfold bind at 1, modify at 1. lazy beta iota.
  unfold bind at 1, gets at 1. lazy beta iota.
  unfold bind at 1, modify at 1. lazy beta iota.
  rewrite Huri. unfold bind at 1, lift at 1. lazy beta iota.
  unfold _get_storage. rewrite Hctor, Hsto. unfold bind at 1, lift at 1. lazy beta iota.
  state_norm. rewrite Htell, Hfl, logfmt_eq. unfold bind at 1, lift at 1. lazy beta iota.
  unfold bind at 1. unfold maybeDeferred at 1.
  unfold bind at 1 2 3 4, gets at 1 2, modify at 1 2, ret at 1.
  lazy beta iota. state_norm. rewrite Hstream.
  rewrite callbacks_attached_state by done.
  unfold inline_end, store_outcome. fold feed.
  destruct (store_mode storage); cbn [from_option]; rewrite <-?app_assoc; cbn [app];
    try done.
  - rewrite (list_alter_lookup _ _ _ _ Hstream), list_insert_insert_eq. done.
  - rewrite (list_alter_lookup _ _ _ _ Hstream), list_insert_insert_eq. done.
Qed.

#[local] Transparent pyformat.

Lemma store_wanted_test self slot :
  store_wanted self slot →
  bool_decide (itemcount slot = 0%Z) && negb (store_empty self) = false.
Proof.
  intros [Hn| ->]; [by rewrite bool_decide_eq_false_2|by rewrite andb_false_r].
Qed.

#[local] Opaque pyformat.

(** Once the store has ended, inline or through the reactor, the completion
    is logged and the stream closed. *)
Lemma close_spider_settled self spider now st slot uri ctor storage r :
  feed_inv st →
  slots st !! spider_id spider = Some slot →
  store_wanted self slot →
  pyformat (urifmt self) (Mapping (_get_uri_params self spider now)) = Ret uri →
  storages self !! urlparse_scheme uri = Some ctor →
  ctor uri = Ret (Some storage) →
  percent_free (format self) = true → percent_free uri = true →
  (close_spider self spider now st).1 = Ret (Some (length (deferreds st)))
  ∧ trace (settle (length (deferreds st)) r (close_spider self spider now st).2)
    = trace st ++
        [EvStore storage (file slot) (Some (finished_stream slot false)) (spider_id spider);
         completion self (spider_id spider) (itemcount slot)
           (Z.of_nat (length (f_data (finished_stream slot false)))) uri
           (store_outcome storage r);
         EvClose (file slot)]
  ∧ files (settle (length (deferreds st)) r (close_spider self spider now st).2) !! file slot
    = Some (finished_stream slot true).
Proof.
  intros Hinv Hs Hw Huri Hctor Hsto Hpf Hpu.
  rewrite (close_spider_launches self spider now st slot uri ctor storage Hinv Hs);
    [|by apply store_wanted_test|done..].
  cbn [fst snd]. split; [done|].
  assert (file slot < length (files st)) as Hlt.
  { destruct (inv_slot _ Hinv _ _ Hs) as (_ & _ & Hf). by eapply lookup_lt_Some. }
  pose proof (feed_line_format "Stored" self (itemcount slot)
                (Z.of_nat (length (f_data (finished_stream slot false)))) uri Hpf Hpu)
    as Hstored.
  unfold settle, inline_end, store_outcome. cbn [deferreds].
  rewrite list_lookup_middle by done.
  destruct (store_mode storage); cbn [d_result d_callbacks trace files];
    [by rewrite list_lookup_insert_eq..|].
  unfold fire, bind, gets, modify. cbn [deferreds]. rewrite list_lookup_middle by done.
  state_norm. rewrite insert_last.
  unfold runCallbacks. cbn [deferreds]. rewrite list_lookup_middle by done.
  unfold attached.
  destruct r as [|e]; cbn [app run_chain run_thunk]; rewrite ?Hstored; state_norm;
    cbn [app run_chain run_thunk]; state_norm;
    cbn [files trace]; rewrite <-?app_assoc, list_lookup_alter_eq,
      list_lookup_insert_eq by done; done.
Qed.

#[local] Transparent pyformat.

(** The slot a spider has when it has been opened and signals that do not
    open or close it have been delivered. *)
Lemma opened_slot self st0 spider sigs cls :
  feed_inv st0 →
  exporters self !! format self = Some cls →
  Forall (inside (spider_id spider)) sigs →
  feed_inv (deliver_all self sigs (deliver self (spider_opened spider) st0))
  ∧ slots (deliver_all self sigs (deliver self (spider_opened spider) st0)) !! spider_id spider
    = Some {| file := length (files st0);
              exporter := {| exp_class := cls; exp_file := length (files st0);
                             exp_seen := items_of (spider_id spider) sigs |};
              itemcount := Z.of_nat (length (items_of (spider_id spider) sigs)) |}.
Proof.
  intros Hinv Hcls Hsigs.
  set (st1 := deliver self (spider_opened spider) st0).
  assert (feed_inv st1) as Hinv1 by by apply deliver_inv.
  assert (slots st1 !! spider_id spider =
            Some {| file := length (files st0);
                    exporter := {| exp_class := cls; exp_file := length (files st0);
                                   exp_seen := [] |};
                    itemcount := 0 |}) as Hslot1.
  { subst st1. cbn [deliver]. rewrite open_spider_eq, Hcls. cbn. by rewrite lookup_insert_eq. }
  split; [by apply deliver_all_inv|].
  by rewrite (deliver_all_slot self sigs _ _ st1 Hinv1 Hsigs Hslot1).
Qed.

(** X9.  With FEED_STORE_EMPTY on, every closed spider's feed is stored,
    also when no item was passed: [store] is called once with the rewound
    stream holding the feed of the items passed since the spider was opened
    (header and footer alone when there were none), the completion line
    reports their number, zero included, and the stream is closed after
    it. *)
Theorem store_empty_stores_every_feed (self : FeedExporter) (st0 : State) (spider : Spider)
    (sigs : list Signal) (now uri : string) (cls : ExporterClass)
    (ctor : StorageCtor) (storage : Storage) :
  feed_inv st0 →
  store_empty self = true →
  exporters self !! format self = Some cls →
  Forall (inside (spider_id spider)) sigs →
  pyformat (urifmt self) (Mapping (_get_uri_params self spider now)) = Ret uri →
  storages self !! urlparse_scheme uri = Some ctor →
  ctor uri = Ret (Some storage) →
  percent_free (format self) = true →
  percent_free uri = true →
  let st2 := deliver_all self sigs (deliver self (spider_opened spider) st0) in
  let passed := items_of (spider_id spider) sigs in
  let f := length (files st0) in
  let stream := {| f_data := feed_bytes cls passed; f_pos := 0; f_closed := false |} in
  ∃ d, (close_spider self spider now st2).1 = Ret (Some d)
       ∧ ∀ r, trace (settle d r (close_spider self spider now st2).2) =
                trace st2 ++
                  [EvStore storage f (Some stream) (spider_id spider);
                   completion self (spider_id spider) (Z.of_nat (length passed))
                     (Z.of_nat (length (feed_bytes cls passed))) uri
                     (store_outcome storage r);
                   EvClose f]
              ∧ f_closed <$> files (settle d r (close_spider self spider now st2).2) !! f
                = Some true.
Proof.
  intros Hinv Hempty Hcls Hsigs Huri Hctor Hsto Hpf Hpu st2 passed f stream.
  destruct (opened_slot self st0 spider sigs cls Hinv Hcls Hsigs) as [Hinv2 Hslot2].
  fold st2 passed f in Hinv2, Hslot2.
  exists (length (deferreds st2)). split.
  - destruct (close_spider_settled self spider now st2 _ uri ctor storage DSuccess
                Hinv2 Hslot2) as (Hret & _); try done. by right.
  - intros r.
    destruct (close_spider_settled self spider now st2 _ uri ctor storage r Hinv2 Hslot2)
      as (_ & Htr & Hfl); try done; [by right|].
    cbn [file] in Hfl. rewrite Htr, Hfl. split; [|done].
    unfold stream, finished_stream, feed_bytes, feed_so_far.
    cbn [file exporter itemcount exp_class exp_seen f_data]. by rewrite <-app_assoc.
Qed.

#[local] Opaque pyformat.

(** X10.  When the store runs: a storage whose [store] returns or raises
    has stored, logged and closed the stream by the time [close_spider]
    returns, and its Deferred has fired; a storage whose [store] defers
    leaves the stream open and nothing logged until the reactor fires the
    Deferred, and then the completion is logged and the stream closed.  A
    Deferred fires once: firing it again raises and changes nothing. *)
Theorem store_inline_or_deferred (self : FeedExporter) (spider : Spider) (now : string)
    (st : State) (slot : SpiderSlot) (uri : string) (ctor : StorageCtor) (storage : Storage) :
  feed_inv st →
  slots st !! spider_id spider = Some slot →
  store_wanted self slot →
  pyformat (urifmt self) (Mapping (_get_uri_params self spider now)) = Ret uri →
  storages self !! urlparse_scheme uri = Some ctor →
  ctor uri = Ret (Some storage) →
  percent_free (format self) = true → percent_free uri = true →
  let out := close_spider self spider now st in
  let d := length (deferreds st) in
  let call := EvStore storage (file slot) (Some (finished_stream slot false))
                (spider_id spider) in
  let report := completion self (spider_id spider) (itemcount slot)
                  (Z.of_nat (length (f_data (finished_stream slot false)))) uri in
  out.1 = Ret (Some d)
  ∧ match store_mode storage with
    | StoreDefers =>
        trace out.2 = trace st ++ [call]
        ∧ files out.2 !! file slot = Some (finished_stream slot false)
        ∧ ∀ r, (fire d r out.2).1 = Ret tt
               ∧ trace (fire d r out.2).2 = trace st ++ [call; report r; EvClose (file slot)]
               ∧ files (fire d r out.2).2 !! file slot = Some (finished_stream slot true)
               ∧ ∀ r', fire d r' (fire d r out.2).2
                       = (Raise AlreadyCalledError, (fire d r out.2).2)
    | _ =>
        trace out.2
        = trace st ++ [call; report (store_outcome storage DSuccess); EvClose (file slot)]
        ∧ files out.2 !! file slot = Some (finished_stream slot true)
        ∧ ∀ r, fire d r out.2 = (Raise AlreadyCalledError, out.2)
    end.
Proof.
  intros Hinv Hs Hw Huri Hctor Hsto Hpf Hpu out d call report. subst out.
  rewrite (close_spider_launches self spider now st slot uri ctor storage Hinv Hs);
    [|by apply store_wanted_test|done..].
  cbn [fst snd]. split; [done|].
  assert (file slot < length (files st)) as Hlt.
  { destruct (inv_slot _ Hinv _ _ Hs) as (_ & _ & Hf). by eapply lookup_lt_Some. }
  pose proof (feed_line_format "Stored" self (itemcount slot)
                (Z.of_nat (length (f_data (finished_stream slot false)))) uri Hpf Hpu)
    as Hstored.
  unfold inline_end, store_outcome.
  destruct (store_mode storage) as [|e|]; cbn [trace files].
  - split_and!; [done|by rewrite list_lookup_insert_eq|]. intros r.
    unfold fire, bind, gets. cbn [deferreds]. by rewrite list_lookup_middle.
  - split_and!; [done|by rewrite list_lookup_insert_eq|]. intros r.
    unfold fire, bind, gets. cbn [deferreds]. by rewrite list_lookup_middle.
  - split_and!; [done|by rewrite list_lookup_insert_eq|]. intros r.
    match goal with |- context [fire d r ?s] => set (stF := s) end.
    assert (fire d r stF
            = (Ret tt,
               {| slots := delete (spider_id spider) (slots st);
                  files := alter file_close (file slot)
                             (<[file slot := finished_stream slot false]> (files st));
                  deferreds := deferreds st ++ [{| d_result := Some DSuccess;
                                                   d_callbacks := [] |}];
                  trace := trace st ++ [call; report r; EvClose (file slot)] |})) as ->.
    { subst stF d. unfold fire, bind, gets, modify. cbn [deferreds].
      rewrite list_lookup_middle by done. state_norm. rewrite insert_last.
      unfold runCallbacks. cbn [deferreds]. rewrite list_lookup_middle by done.
      unfold attached.
      destruct r as [|e]; cbn [app run_chain run_thunk]; rewrite ?Hstored; state_norm;
        cbn [app run_chain run_thunk]; state_norm; rewrite insert_last, ?app_nil_r,
          <-?app_assoc; done. }
    cbn [fst snd trace files]. split_and!; [done|done| |].
    + by rewrite list_lookup_alter_eq, list_lookup_insert_eq.
    + intros r'. unfold fire, bind, gets. cbn [deferreds]. by rewrite list_lookup_middle.
Qed.

(** X11.  A close that gets no storage: when formatting the URI raises,
    the scheme of the formatted URI is not registered, or the storage class
    raises or gives a falsy storage, [close_spider] ends there, returning
    nothing or raising what was raised.  By then the slot is popped and the
    export finished: nothing is stored or logged, no Deferred is made, and
    the stream is left rewound and open, with no callback anywhere that
    would close it. *)
Theorem close_without_storage (self : FeedExporter) (spider : Spider) (now : string)
    (st : State) (slot : SpiderSlot) :
  feed_inv st →
  slots st !! spider_id spider = Some slot →
  store_wanted self slot →
  (∀ storage, resolve self spider now ≠ Ret (Some storage)) →
  close_spider self spider now st
  = (rmap (λ _, None) (resolve self spider now),
     {| slots := delete (spider_id spider) (slots st);
        files := <[file slot := finished_stream slot false]> (files st);
        deferreds := deferreds st;
        trace := trace st |})
  ∧ ∀ d dd p, deferreds st !! d = Some dd → p ∈ d_callbacks dd → ¬ closes (file slot) p.
Proof.
  intros Hinv Hs Hw Hres. split.
  2:{ intros d dd p Hd Hp Hc. destruct (inv_deferred _ Hinv d dd p _ Hd Hp Hc) as [_ Hdead].
      by apply (Hdead _ _ Hs). }
  destruct (inv_slot st Hinv _ _ Hs) as (Hexp & Hcount & Hfile).
  destruct st as [sl fl dl tr]. cbn [slots files deferreds trace] in *.
  assert (alter (file_seek 0) (file slot)
            (alter (file_write (finish_bytes (exp_class (exporter slot))
                                  (exp_seen (exporter slot)))) (file slot) fl)
          = <[file slot := finished_stream slot false]> fl) as Hfl.
  { rewrite (list_alter_lookup _ fl _ _ Hfile).
    rewrite (list_alter_lookup _ _ _ (file_write (finish_bytes (exp_class (exporter slot))
                                        (exp_seen (exporter slot))) (stream_of (exporter slot)))).
    - rewrite list_insert_insert_eq. unfold stream_of. by rewrite file_write_end.
    - apply list_lookup_insert_eq. by eapply lookup_lt_Some. }
  unfold close_spider. unfold bind at 1. unfold gets at 1. cbn [slots]. rewrite Hs.
  unfold bind at 1. unfold modify at 1. rewrite (store_wanted_test _ _ Hw).
  unfold finish_exporting, write, tell, seek. rewrite Hexp.
  unfold bind at 1, modify at 1. lazy beta iota.
  unfold bind at 1, gets at 1. lazy beta iota.
  unfold bind at 1, modify at 1. lazy beta iota.
  state_norm. rewrite Hfl.
  unfold resolve in *.
  destruct (pyformat (urifmt self) (Mapping (_get_uri_params self spider now))) as [uri|e];
    [|done].
  unfold bind at 1, lift at 1. lazy beta iota. unfold _get_storage.
  destruct (storages self !! urlparse_scheme uri) as [ctor|]; [|done].
  unfold bind at 1, lift at 1.
  destruct (ctor uri) as [[storage|]|e]; [|done..]. by destruct (Hres storage).
Qed.

#[local] Transparent pyformat.

(** *** Construction *)

(** X12.  An extension that [__init__] has built is ready: the URI
    template is not empty, the format is the lower-cased setting, both
    registries are what [_load_components] gives, the scheme of the template
    is registered and its storage class accepts the template, the format is
    registered, the customizer is the identity or the loaded one, the three
    handlers are connected in order and nothing else has happened; and
    [open_spider] of such an extension never raises. *)
Theorem init_ready (settings : Settings) (ld : Loader) (st st' : State)
    (fe : FeedExporter) :
  FeedExporter_init settings ld st = (Ret fe, st') →
  FEED_URI settings ≠ EmptyString
  ∧ urifmt fe = FEED_URI settings
  ∧ format fe = lower (FEED_FORMAT settings)
  ∧ store_empty fe = FEED_STORE_EMPTY settings
  ∧ _load_components (load_storage ld) (FEED_STORAGES_BASE settings) (FEED_STORAGES settings)
    = Ret (storages fe)
  ∧ _load_components (load_exporter ld) (FEED_EXPORTERS_BASE settings)
      (FEED_EXPORTERS settings)
    = Ret (exporters fe)
  ∧ (∃ ctor sto, storages fe !! urlparse_scheme (urifmt fe) = Some ctor
                 ∧ ctor (urifmt fe) = Ret sto)
  ∧ is_Some (exporters fe !! format fe)
  ∧ (if bool_decide (FEED_URI_PARAMS settings = EmptyString)
     then _uripar fe = (λ params _, params)
     else load_uripar ld (FEED_URI_PARAMS settings) = Ret (_uripar fe))
  ∧ st' = {| slots := slots st; files := files st; deferreds := deferreds st;
             trace := trace st ++ [EvConnect "open_spider" "spider_opened";
                                   EvConnect "close_spider" "spider_closed";
                                   EvConnect "item_passed" "item_passed"] |}
  ∧ ∀ spider st1, (open_spider fe spider st1).1 = Ret tt.
Proof.
  unfold FeedExporter_init. case_bool_decide as Huri; [done|].
  destruct (_load_components (load_storage ld) _ _) as [stos|e] eqn:Hstos; [|done].
  destruct (_load_components (load_exporter ld) _ _) as [exps|e] eqn:Hexps; [|done].
  unfold bind at 1, lift at 1. unfold bind at 1, lift at 1.
  unfold bind at 1. unfold _storage_supported.
  destruct (stos !! urlparse_scheme (FEED_URI settings)) as [ctor|] eqn:Hctor; [|done].
  unfold try_NotConfigured, bind at 1, lift at 1.
  destruct (ctor (FEED_URI settings)) as [sto|e] eqn:Hsto; [|by destruct e].
  cbn [ret negb]. unfold bind at 1. unfold _exporter_supported.
  destruct (exps !! lower (FEED_FORMAT settings)) as [cls|] eqn:Hcls; [|done].
  cbn [ret negb]. unfold bind at 1.
  assert (∀ uripar,
    (run connect "open_spider" "spider_opened";
     run connect "close_spider" "spider_closed";
     run connect "item_passed" "item_passed";
     ret {| urifmt := FEED_URI settings; format := lower (FEED_FORMAT settings);
            storages := stos; exporters := exps;
            store_empty := FEED_STORE_EMPTY settings; _uripar := uripar |}) st
    = (Ret {| urifmt := FEED_URI settings; format := lower (FEED_FORMAT settings);
              storages := stos; exporters := exps;
              store_empty := FEED_STORE_EMPTY settings; _uripar := uripar |},
       {| slots := slots st; files := files st; deferreds := deferreds st;
          trace := trace st ++ [EvConnect "open_spider" "spider_opened";
                                EvConnect "close_spider" "spider_closed";
                                EvConnect "item_passed" "item_passed"] |})) as Hconn.
  { intros uripar. unfold bind, connect, modify, ret, emit. cbn [slots files deferreds trace].
    by rewrite <-!app_assoc. }
  case_bool_decide as Hpar.
  - unfold ret at 1. rewrite Hconn. intros [= <- <-].
    cbn [urifmt format storages exporters store_empty _uripar].
    split_and!; try done; [by exists ctor, sto|].
    intros spider st1. rewrite open_spider_eq. cbn [exporters format]. by rewrite Hcls.
  - unfold lift at 1.
    destruct (load_uripar ld (FEED_URI_PARAMS settings)) as [uripar|e] eqn:Hload; [|done].
    rewrite Hconn. intros [= <- <-].
    cbn [urifmt format storages exporters store_empty _uripar].
    split_and!; try done; [by exists ctor, sto|].
    intros spider st1. rewrite open_spider_eq. cbn [exporters format]. by rewrite Hcls.
Qed.

(** X13.  A construction that fails has connected no handler: the slots,
    the files and the Deferreds are as before, and either nothing at all
    has happened or the failure is NotConfigured and exactly one line has
    been logged, at level ERROR. *)
Theorem init_failure (settings : Settings) (ld : Loader) (st st' : State) (e : Exn) :
  FeedExporter_init settings ld st = (Raise e, st') →
  st' = st ∨ (e = NotConfigured ∧ ∃ msg, st' = emit (EvLogMsg msg ERROR None) st).
Proof.
  unfold FeedExporter_init. case_bool_decide as Huri; [intros [= <- <-]; by left|].
  destruct (_load_components (load_storage ld) _ _) as [stos|e1] eqn:Hstos;
    [|intros [= <- <-]; by left].
  destruct (_load_components (load_exporter ld) _ _) as [exps|e1] eqn:Hexps;
    [|intros [= <- <-]; by left].
  unfold bind at 1, lift at 1. unfold bind at 1, lift at 1.
  unfold bind at 1. unfold _storage_supported.
  destruct (stos !! urlparse_scheme (FEED_URI settings)) as [ctor|] eqn:Hctor.
  2:{ intros [= <- <-]. right. split; [done|]. by eexists. }
  unfold try_NotConfigured, bind at 1, lift at 1.
  destruct (ctor (FEED_URI settings)) as [sto|e1] eqn:Hsto.
  2:{ destruct e1; intros [= <- <-]; try (by left). right. split; [done|]. by eexists. }
  cbn [ret negb]. unfold bind at 1. unfold _exporter_supported.
  destruct (exps !! lower (FEED_FORMAT settings)) as [cls|] eqn:Hcls.
  2:{ intros [= <- <-]. right. split; [done|]. by eexists. }
  cbn [ret negb]. unfold bind at 1.
  case_bool_decide as Hpar; [done|]. unfold lift at 1.
  destruct (load_uripar ld (FEED_URI_PARAMS settings)) as [uripar|e1]; [done|].
  intros [= <- <-]. by left.
Qed.

Ltac init_to_checks Huri Hstos Hexps :=
  unfold FeedExporter_init; rewrite bool_decide_eq_false_2 by exact Huri;
  rewrite Hstos, Hexps; unfold bind at 1, lift at 1; unfold bind at 1, lift at 1;
  unfold bind at 1; unfold _storage_supported, try_NotConfigured; lazy zeta.

(** X14.  What a refused construction logs, when both registries load: an
    unregistered scheme of the URI template is reported as unknown, a
    storage class that raises NotConfigured on the template as disabled, and
    only then an unregistered format, lower-cased, as unknown; any other
    exception of the storage class goes up unlogged.  So an unsupported
    storage hides an unsupported format. *)
Theorem init_refusals (settings : Settings) (ld : Loader) (st : State)
    (stos : gmap string StorageCtor) (exps : gmap string ExporterClass) :
  FEED_URI settings ≠ EmptyString →
  _load_components (load_storage ld) (FEED_STORAGES_BASE settings) (FEED_STORAGES settings)
  = Ret stos →
  _load_components (load_exporter ld) (FEED_EXPORTERS_BASE settings) (FEED_EXPORTERS settings)
  = Ret exps →
  let uri := FEED_URI settings in
  let scheme := urlparse_scheme uri in
  let fmt := lower (FEED_FORMAT settings) in
  (stos !! scheme = None →
   FeedExporter_init settings ld st
   = (Raise NotConfigured,
      emit (EvLogMsg ("Unknown feed storage scheme: " +:+ scheme) ERROR None) st))
  ∧ (∀ ctor, stos !! scheme = Some ctor → ctor uri = Raise NotConfigured →
     FeedExporter_init settings ld st
     = (Raise NotConfigured,
        emit (EvLogMsg ("Disabled feed storage scheme: " +:+ scheme) ERROR None) st))
  ∧ (∀ ctor e, stos !! scheme = Some ctor → ctor uri = Raise e → e ≠ NotConfigured →
     FeedExporter_init settings ld st = (Raise e, st))
  ∧ (∀ ctor sto, stos !! scheme = Some ctor → ctor uri = Ret sto → exps !! fmt = None →
     FeedExporter_init settings ld st
     = (Raise NotConfigured,
        emit (EvLogMsg ("Unknown feed format: " +:+ fmt) ERROR None) st)).
Proof.
  intros Huri Hstos Hexps uri scheme fmt. subst uri scheme fmt.
  split_and!.
  - intros Hl. init_to_checks Huri Hstos Hexps.
    by destruct (stos !! urlparse_scheme (FEED_URI settings)).
  - intros ctor Hl Hc. init_to_checks Huri Hstos Hexps.
    destruct (stos !! urlparse_scheme (FEED_URI settings)) as [c|]; [|done].
    injection Hl as ->. unfold bind at 1, lift at 1. by rewrite Hc.
  - intros ctor e Hl Hc Hne. init_to_checks Huri Hstos Hexps.
    destruct (stos !! urlparse_scheme (FEED_URI settings)) as [c|]; [|done].
    injection Hl as ->. unfold bind at 1, lift at 1. rewrite Hc. by destruct e.
  - intros ctor sto Hl Hc Hfmt. init_to_checks Huri Hstos Hexps.
    destruct (stos !! urlparse_scheme (FEED_URI settings)) as [c|]; [|done].
    injection Hl as ->. unfold bind at 1, lift at 1. rewrite Hc. cbn [ret negb].
    unfold bind at 1. unfold _exporter_supported. by rewrite Hfmt.
Qed.

(** *** The URI parameters *)

Lemma replace_char_no_colon (now : string) :
  before_colon (replace_char ":" "-" now) = None
  ∧ String.length (replace_char ":" "-" now) = String.length now.
Proof.
  induction now as [|c now [IHc IHl]]; [done|].
  unfold replace_char in *. cbn [string_map before_colon String.length].
  rewrite IHl. split; [|done].
  destruct (decide (c = ":"%char)) as [->|Hne].
  - cbn. by rewrite IHc.
  - destruct (decide (c = ":"%char)); [done|]. by rewrite IHc.
Qed.

(** X15.  The parameters the URI template is formatted with, for an
    extension built without a customizer: the spider's attributes, with
    [time] set to the time stamp in which every colon has become a hyphen,
    whatever attribute of that name the spider has.  The stamp has the
    length of the ISO one and no colon, so it is never read as a URL
    scheme. *)
Theorem uri_params_time (settings : Settings) (ld : Loader) (st st' : State)
    (fe : FeedExporter) (spider : Spider) (now : string) :
  FeedExporter_init settings ld st = (Ret fe, st') →
  FEED_URI_PARAMS settings = EmptyString →
  _get_uri_params fe spider now !! "time" = Some (PStr (replace_char ":" "-" now))
  ∧ (∀ k, k ≠ "time" → _get_uri_params fe spider now !! k = attrs spider !! k)
  ∧ String.length (replace_char ":" "-" now) = String.length now
  ∧ urlparse_scheme (replace_char ":" "-" now) = EmptyString.
Proof.
  intros Hinit Hpar.
  assert (_uripar fe = (λ params _, params)) as Hup.
  { revert Hinit. unfold FeedExporter_init. case_bool_decide; [done|].
    destruct (_load_components (load_storage ld) _ _) as [stos|e]; [|done].
    destruct (_load_components (load_exporter ld) _ _) as [exps|e]; [|done].
    unfold bind at 1, lift at 1. unfold bind at 1, lift at 1. unfold bind at 1.
    destruct (_storage_supported stos (FEED_URI settings) st) as [[[]|e] st1]; try done.
    cbn [negb]. unfold bind at 1.
    destruct (_exporter_supported exps (lower (FEED_FORMAT settings)) st1) as [[[]|e] st2];
      try done.
    cbn [negb]. rewrite bool_decide_eq_true_2 by done.
    unfold bind, ret, connect, modify. by intros [= <- _]. }
  destruct (replace_char_no_colon now) as [Hcolon Hlen].
  unfold _get_uri_params. rewrite Hup. split_and!.
  - by rewrite lookup_insert_eq.
  - intros k Hk. by rewrite lookup_insert_ne.
  - done.
  - unfold urlparse_scheme. by rewrite Hcolon.
Qed.

(** *** Witnesses *)

(** The witness of X8: while the shop is open another spider is opened,
    passed an item and closed, its feed going to standard output. *)
Lemma other_spiders_leave_feed_alone_witness :
  slots (deliver_all (Scenario.extension "stdout:")
           [spider_opened Scenario.blog;
            item_passed_signal Scenario.pen Scenario.blog;
            spider_closed Scenario.blog Scenario.midnight]
           (Scenario.crawled "stdout:" [])) !! 7
  = Some (Scenario.shop_slot [])
  ∧ files (deliver_all (Scenario.extension "stdout:")
             [spider_opened Scenario.blog;
              item_passed_signal Scenario.pen Scenario.blog;
              spider_closed Scenario.blog Scenario.midnight]
             (Scenario.crawled "stdout:" [])) !! file (Scenario.shop_slot [])
    = Some (stream_of (exporter (Scenario.shop_slot []))).
Proof.
  apply (other_spiders_leave_feed_alone (Scenario.extension "stdout:")
           [spider_opened Scenario.blog;
            item_passed_signal Scenario.pen Scenario.blog;
            spider_closed Scenario.blog Scenario.midnight]
           7 (Scenario.shop_slot []) (Scenario.crawled "stdout:" [])).
  - unfold Scenario.crawled, Scenario.started. apply feed_inv_reachable.
  - repeat constructor; vm_compute; lia.
  - vm_compute. reflexivity.
Defined.

(** The witness of X9: the shop is opened and closed with no item in
    between, empty feeds being stored. *)
Lemma store_empty_stores_every_feed_witness :
  ∃ d,
    (close_spider (Scenario.extension_storing_empty "stdout:") Scenario.shop
       Scenario.midnight
       (deliver_all (Scenario.extension_storing_empty "stdout:") []
          (deliver (Scenario.extension_storing_empty "stdout:")
             (spider_opened Scenario.shop) Scenario.started))).1 = Ret (Some d).
Proof.
  destruct (store_empty_stores_every_feed
              (Scenario.extension_storing_empty "stdout:") Scenario.started Scenario.shop
              [] Scenario.midnight "stdout:" Scenario.LinesItemExporter StdoutFeedStorage
              {| target := "stdout:"; store_mode := StoreReturns |}) as (d & Hd & _).
  - apply feed_inv_fresh.
  - reflexivity.
  - vm_compute. reflexivity.
  - constructor.
  - vm_compute. reflexivity.
  - vm_compute. reflexivity.
  - reflexivity.
  - vm_compute. reflexivity.
  - vm_compute. reflexivity.
  - exists d. exact Hd.
Defined.

(** The witness of X10: one item, the feed going to standard output. *)
Lemma store_inline_or_deferred_witness :
  (close_spider (Scenario.extension "stdout:") Scenario.shop Scenario.midnight
     (Scenario.crawled "stdout:" [item_passed_signal Scenario.book Scenario.shop])).1
  = Ret (Some (length (deferreds
       (Scenario.crawled "stdout:" [item_passed_signal Scenario.book Scenario.shop])))).
Proof.
  destruct (store_inline_or_deferred (Scenario.extension "stdout:") Scenario.shop
              Scenario.midnight
              (Scenario.crawled "stdout:" [item_passed_signal Scenario.book Scenario.shop])
              (Scenario.shop_slot [Scenario.book]) "stdout:" StdoutFeedStorage
              {| target := "stdout:"; store_mode := StoreReturns |}) as [Hret _].
  - unfold Scenario.crawled, Scenario.started. apply feed_inv_reachable.
  - vm_compute. reflexivity.
  - left. vm_compute. discriminate.
  - vm_compute. reflexivity.
  - vm_compute. reflexivity.
  - reflexivity.
  - vm_compute. reflexivity.
  - vm_compute. reflexivity.
  - exact Hret.
Defined.

(** The witness of X11: a spider attribute fills in a scheme that is
    not registered. *)
Lemma close_without_storage_witness :
  close_spider (Scenario.extension "%(proto)s://example.com/feed.json") Scenario.shop
    Scenario.midnight
    (Scenario.crawled "%(proto)s://example.com/feed.json"
       [item_passed_signal Scenario.book Scenario.shop])
  = (rmap (λ _, None)
       (resolve (Scenario.extension "%(proto)s://example.com/feed.json") Scenario.shop
          Scenario.midnight),
     {| slots := delete (spider_id Scenario.shop)
                   (slots (Scenario.crawled "%(proto)s://example.com/feed.json"
                             [item_passed_signal Scenario.book Scenario.shop]));
        files := <[file (Scenario.shop_slot [Scenario.book])
                   := finished_stream (Scenario.shop_slot [Scenario.book]) false]>
                   (files (Scenario.crawled "%(proto)s://example.com/feed.json"
                             [item_passed_signal Scenario.book Scenario.shop]));
        deferreds := deferreds (Scenario.crawled "%(proto)s://example.com/feed.json"
                                  [item_passed_signal Scenario.book Scenario.shop]);
        trace := trace (Scenario.crawled "%(proto)s://example.com/feed.json"
                          [item_passed_signal Scenario.book Scenario.shop]) |}).
Proof.
  destruct (close_without_storage (Scenario.extension "%(proto)s://example.com/feed.json")
              Scenario.shop Scenario.midnight
              (Scenario.crawled "%(proto)s://example.com/feed.json"
                 [item_passed_signal Scenario.book Scenario.shop])
              (Scenario.shop_slot [Scenario.book])) as [Hclose _].
  - unfold Scenario.crawled, Scenario.started. apply feed_inv_reachable.
  - vm_compute. reflexivity.
  - left. vm_compute. discriminate.
  - intros storage Hres. vm_compute in Hres. discriminate Hres.
  - exact Hclose.
Defined.

(** The witness of X12: the settings of the scenario, the feed going to
    standard output. *)
Lemma init_ready_witness :
  is_Some (exporters (Scenario.extension "stdout:") !! format (Scenario.extension "stdout:")).
Proof.
  destruct (init_ready (Scenario.settings "stdout:") Scenario.loader init_state
              Scenario.started (Scenario.extension "stdout:")) as (_ & _ & _ & _ & _ & _ & _ & Hfmt & _).
  - vm_compute. reflexivity.
  - exact Hfmt.
Defined.

(** The witness of X13: a feed URI whose scheme is not registered. *)
Lemma init_failure_witness :
  emit (EvLogMsg "Unknown feed storage scheme: gopher" ERROR None) init_state = init_state
  ∨ (NotConfigured = NotConfigured
     ∧ ∃ msg, emit (EvLogMsg "Unknown feed storage scheme: gopher" ERROR None) init_state
              = emit (EvLogMsg msg ERROR None) init_state).
Proof.
  apply (init_failure (Scenario.settings "gopher://example.com/feed.json") Scenario.loader
           init_state).
  vm_compute. reflexivity.
Defined.

(** The witness of X14: a feed on S3 without [boto]. *)
Lemma init_refusals_witness :
  FeedExporter_init (Scenario.settings "s3://bucket/feed.json") Scenario.loader init_state
  = (Raise NotConfigured,
     emit (EvLogMsg ("Disabled feed storage scheme: "
                     +:+ urlparse_scheme (FEED_URI (Scenario.settings "s3://bucket/feed.json")))
             ERROR None) init_state).
Proof.
  pose proof (init_refusals (Scenario.settings "s3://bucket/feed.json") Scenario.loader
                init_state (storages (Scenario.extension "s3://bucket/feed.json"))
                (exporters (Scenario.extension "s3://bucket/feed.json"))) as Hinit.
  cbv zeta in Hinit. destruct Hinit as (_ & Hdisabled & _).
  - intros Hempty. vm_compute in Hempty. discriminate Hempty.
  - vm_compute. reflexivity.
  - vm_compute. reflexivity.
  - apply (Hdisabled (S3FeedStorage false)); vm_compute; reflexivity.
Defined.

(** The witness of X15: the shop at midnight. *)
Lemma uri_params_time_witness :
  _get_uri_params (Scenario.extension "stdout:") Scenario.shop Scenario.midnight !! "time"
  = Some (PStr (replace_char ":" "-" Scenario.midnight)).
Proof.
  destruct (uri_params_time (Scenario.settings "stdout:") Scenario.loader init_state
              Scenario.started (Scenario.extension "stdout:") Scenario.shop
              Scenario.midnight) as [Htime _].
  - vm_compute. reflexivity.
  - reflexivity.
  - exact Htime.
Defined.

End FeedExportFacts.
